(** * multi_agent_rl.py: the Tag rollout renderer and the training driver

    A shallow embedding of [lightning_examples/warp-drive/multi_agent_rl.py].
    The file has three locally authored parts, and the development follows
    them:

    - [Renderer]: [generate_tag_env_rollout_animation] with its two
      closures [_get_label] and [animate] (lines 177-297);
    - [Config]: the [run_config] literal (lines 54-141) and the reads the
      driver makes of it;
    - [Driver]: the top-level statements of the script, from the GPU
      assertion (line 36) to [wd_module.graceful_close()] (line 367).

    [TrueDivide] models Python's [/] on integers, which the driver uses
    for [num_epochs] (line 330).

    External collaborators (WarpDrive, PyTorch Lightning, matplotlib,
    numpy) are not modelled beyond the part of their behaviour the script
    depends on: what an indexing expression returns or raises, whether a
    call returns normally. *)

From Stdlib Require Import ZArith List String Bool Lia.
From Stdlib Require Import Floats.
From stdpp Require Import base list.
Import ListNotations.

Local Open Scope Z_scope.

(** ** Python values common to all parts *)

Module Py.

(** The exceptions the script can meet.  [KeyError] carries the missing
    key, as Python's does; [ExternalError] is whatever an external callee
    raises. *)
Inductive exn : Type :=
| AssertionError
| KeyError (key : string)
| IndexError
| ZeroDivisionError
| OverflowError
| TypeError
| NameError
| ExternalError (origin : string).

Inductive result (A : Type) : Type :=
| Ok (a : A)
| Raise (e : exn).
Arguments Ok {A} a.
Arguments Raise {A} e.

Definition is_ok {A} (r : result A) : bool :=
  match r with Ok _ => true | Raise _ => false end.

(** A computation over a mutable store [S].  The store is returned in
    both cases: what a Python statement has mutated before it raises
    stays mutated. *)
Definition M (S A : Type) : Type := S -> result A * S.

Definition ret {S A} (a : A) : M S A := fun s => (Ok a, s).

Definition bind {S A B} (m : M S A) (k : A -> M S B) : M S B :=
  fun s => match m s with
           | (Ok a, s') => k a s'
           | (Raise e, s') => (Raise e, s')
           end.

Definition lift {S A} (r : result A) : M S A := fun s => (r, s).

Definition modify {S} (f : S -> S) : M S unit := fun s => (Ok tt, f s).

Definition gets {S A} (f : S -> A) : M S A := fun s => (Ok (f s), s).

(** [for x in xs: body(x)] *)
Fixpoint for_each {S X} (xs : list X) (body : X -> M S unit) : M S unit :=
  match xs with
  | [] => ret tt
  | x :: xs' => bind (body x) (fun _ => for_each xs' body)
  end.

(** The same loop in a context without a store: the first exception
    ends it. *)
Fixpoint map_result {X Y} (f : X -> result Y) (xs : list X) : result (list Y) :=
  match xs with
  | [] => Ok []
  | x :: xs' =>
      match f x with
      | Raise e => Raise e
      | Ok y => match map_result f xs' with
                | Raise e => Raise e
                | Ok ys => Ok (y :: ys)
                end
      end
  end.

(** A relation between the store before and after that every step of a
    computation keeps, also the steps before an exception. *)
Definition keeps {S A} (R : S -> S -> Prop) (m : M S A) : Prop :=
  forall s r s', m s = (r, s') -> R s s'.

(** Every exception the computation can raise satisfies [P]. *)
Definition raises_only {S A} (P : exn -> Prop) (m : M S A) : Prop :=
  forall s e s', m s = (Raise e, s') -> P e.

End Py.

Export Py.

Declare Scope py_scope.
Notation "'let*' x ':=' m 'in' k" := (bind m (fun x => k))
  (at level 10, x name, m at level 100, k at level 200) : py_scope.
Notation "m '>>' k" := (bind m (fun _ => k))
  (at level 90, right associativity) : py_scope.
Local Open Scope py_scope.

(** ** The rollout renderer (lines 177-297) *)

Module Renderer.

(** A two-dimensional numpy array, indexed [timestep, agent].  Numpy
    arrays are rectangular, so the shape is part of the value. *)
Record ndarray (A : Type) : Type := mk_ndarray {
  nrows : nat;
  ncols : nat;
  item : nat -> nat -> A
}.
Arguments mk_ndarray {A} nrows ncols item.
Arguments nrows {A} n.
Arguments ncols {A} n.
Arguments item {A} n i j.

(** An array from its rows, for concrete snapshots. *)
Definition of_rows {A} (d : A) (c : nat) (rows : list (list A)) : ndarray A :=
  mk_ndarray (length rows) c (fun i j => nth j (nth i rows []) d).

(** [a[i, j]]: both indices are bounds-checked. *)
Definition getitem {A} (a : ndarray A) (i j : nat) : result A :=
  if (i <? nrows a)%nat && (j <? ncols a)%nat then Ok (item a i j)
  else Raise IndexError.

(** [a[i : i + 1, j]]: a slice never raises on the sliced axis (it may be
    empty); the integer index [j] is bounds-checked. *)
Definition getslice {A} (a : ndarray A) (i j : nat) : result (list A) :=
  if (j <? ncols a)%nat
  then Ok (if (i <? nrows a)%nat then [item a i j] else [])
  else Raise IndexError.

(** [a[i]]: one row. *)
Definition getrow {A} (a : ndarray A) (i : nat) : result (list A) :=
  if (i <? nrows a)%nat then Ok (map (item a i) (seq 0 (ncols a)))
  else Raise IndexError.

(** The 64-bit integer type numpy computes in: a signed or boolean array
    is summed into an [int64], an unsigned one into a [uint64]. *)
Inductive int_kind : Type :=
| Signed
| Unsigned.

(** Arithmetic in that type wraps around (numpy 2 warns and goes on). *)
Definition wrap64 (k : int_kind) (z : Z) : Z :=
  match k with
  | Signed => (z + 2 ^ 63) mod 2 ^ 64 - 2 ^ 63
  | Unsigned => z mod 2 ^ 64
  end.

(** [row.sum()] on an integer array of that kind. *)
Definition sum (k : int_kind) (row : list Z) : Z :=
  wrap64 k (fold_right Z.add 0 row).

(** The number of entries of a row that Python treats as true. *)
Definition count_active (row : list Z) : Z :=
  Z.of_nat (length (List.filter (fun v => negb (v =? 0)) row)).

(** The kinds of integer that reach [_get_label]: Python's own, and
    numpy's 64-bit scalars (what [.sum()] and [np.arange] produce). *)
Inductive number : Type :=
| PyInt (z : Z)
| NpInt64 (z : Z)
| NpUInt64 (z : Z).

Definition value (n : number) : Z :=
  match n with PyInt z | NpInt64 z | NpUInt64 z => z end.

(** The numpy scalar of a kind. *)
Definition np_scalar (k : int_kind) (z : Z) : number :=
  match k with
  | Signed => NpInt64 z
  | Unsigned => NpUInt64 z
  end.

(** The result of [n / d] as the pair it was computed from.  Python's
    integers raise on a zero divisor; a numpy scalar returns inf or nan
    (with a warning) instead. *)
Inductive fraction : Type :=
| Quotient (n d : Z)
| NonFinite (n : Z).

Definition true_divide (n : number) (d : Z) : result fraction :=
  if d =? 0 then
    match n with
    | PyInt _ => Raise ZeroDivisionError
    | NpInt64 z | NpUInt64 z => Ok (NonFinite z)
    end
  else Ok (Quotient (value n) d).

(** The status label, kept as the three values its text prints:
    ["Time Step: {timestep}"] and
    ["Runners Left: {n_runners_alive} ({frac_runners_alive * 100}%)"]. *)
Record label_text : Type := mk_label {
  timestep : number;
  n_runners_alive : number;
  frac_runners_alive : fraction
}.

(** Lines 256-262. *)
Definition _get_label (t : number) (n : number) (init_n_runners : Z)
  : result label_text :=
  match true_divide n init_n_runners with
  | Raise e => Raise e
  | Ok frac => Ok (mk_label t n frac)
  end.

(** Positions are floating-point numbers; only their division by the
    grid length is used, and numpy's division never raises. *)
Class Coord : Type := mk_coord {
  coord : Type;
  fdiv : coord -> coord -> coord;
  fzero : coord
}.

Section Rendering.

Context {C : Coord}.

(** The three channels the renderer reads of the fetched dictionary.
    [None] is a key that the dictionary lacks.  [flags_kind] is the
    integer type of the [still_in_the_game] array (of no use when the
    dictionary lacks it). *)
Record episode_states : Type := mk_states {
  loc_x : option (ndarray coord);
  loc_y : option (ndarray coord);
  still_in_the_game : option (ndarray Z);
  flags_kind : int_kind
}.

(** [episode_states[key]] *)
Definition lookup_channel {A} (key : string) (c : option A) : result A :=
  match c with
  | Some a => Ok a
  | None => Raise (KeyError key)
  end.

(** The part of [warp_drive_module.cuda_envs.env] the renderer reads. *)
Record environment : Type := mk_env {
  num_agents : Z;
  num_taggers : Z;
  taggers : list nat;
  grid_length : coord;
  episode_length : Z
}.

(** What [fetch_episode_states] may hand back. *)
Inductive pyobject : Type :=
| PyDict (d : episode_states)
| PyOther.

Record warp_drive_module : Type := mk_module {
  fetch_episode_states : list string -> result pyobject;
  cuda_envs_env : environment
}.

(** The keyword parameters of the renderer, with the defaults of lines
    179-184. *)
Record style : Type := mk_style {
  fps : Z;
  tagger_color : string;
  runner_color : string;
  runner_not_in_game_color : string;
  fig_width : Z;
  fig_height : Z
}.

Definition default_style : style :=
  mk_style 25 "#C843C3" "#245EB6" "#666666" 6 6.

(** A matplotlib line artist: one marker per agent. *)
Record line3d : Type := mk_line {
  xs : list coord;
  ys : list coord;
  zs : list coord;
  color : string;
  marker : string;
  markersize : Z
}.

Definition set_data_3d (x y z : list coord) (l : line3d) : line3d :=
  mk_line x y z (color l) (marker l) (markersize l).
Definition set_color (c : string) (l : line3d) : line3d :=
  mk_line (xs l) (ys l) (zs l) c (marker l) (markersize l).
Definition set_marker (m : string) (l : line3d) : line3d :=
  mk_line (xs l) (ys l) (zs l) (color l) m (markersize l).

(** The artists that [animate] mutates. *)
Record figure : Type := mk_figure {
  lines : list line3d;
  label : label_text
}.

Definition update_line (idx : nat) (f : line3d -> line3d) : M figure unit :=
  modify (fun fig => mk_figure (alter f idx (lines fig)) (label fig)).

Definition set_text (t : label_text) : M figure unit :=
  modify (fun fig => mk_figure (lines fig) t).

Definition normalised (env : environment) (vs : list coord) : list coord :=
  map (fun v => fdiv v (grid_length env)) vs.

(** [idx in env.taggers] *)
Definition is_tagger (env : environment) (idx : nat) : bool :=
  existsb (Nat.eqb idx) (taggers env).

(** The role color an agent is first plotted with (lines 235-252). *)
Definition role_color (sty : style) (env : environment) (idx : nat) : string :=
  if is_tagger env idx then tagger_color sty else runner_color sty.

(** One iteration of the loop of lines 234-252.  [plot3D] broadcasts the
    height 0 to the length of the x data. *)
Definition plot_agent (es : episode_states) (env : environment) (sty : style)
    (idx : nat) : result line3d :=
  match lookup_channel "loc_x" (loc_x es) with
  | Raise e => Raise e
  | Ok ax =>
  match getslice ax 0 idx with
  | Raise e => Raise e
  | Ok x =>
  match lookup_channel "loc_y" (loc_y es) with
  | Raise e => Raise e
  | Ok ay =>
  match getslice ay 0 idx with
  | Raise e => Raise e
  | Ok y =>
      Ok (mk_line (normalised env x) (normalised env y)
            (map (fun _ => fzero) x)
            (role_color sty env idx) "o"
            (if is_tagger env idx then 10 else 5))
  end end end end.

(** [range(n)] for a Python integer [n]. *)
Definition range (n : Z) : list nat := seq 0 (Z.to_nat n).

(** Lines 275-292.  The body of the loop reads the two position channels,
    moves the marker, and only then reads the agent's flag. *)
Definition animate_agent (es : episode_states) (env : environment) (sty : style)
    (i idx : nat) : M figure unit :=
  let* ax := lift (lookup_channel "loc_x" (loc_x es)) in
  let* x := lift (getslice ax i idx) in
  let* ay := lift (lookup_channel "loc_y" (loc_y es)) in
  let* y := lift (getslice ay i idx) in
  update_line idx (set_data_3d (normalised env x) (normalised env y) [fzero]) >>
  let* flags := lift (lookup_channel "still_in_the_game" (still_in_the_game es)) in
  let* still_in_game := lift (getitem flags i idx) in
  if negb (still_in_game =? 0) then ret tt
  else
    update_line idx (set_color (runner_not_in_game_color sty)) >>
    update_line idx (set_marker "").

Definition init_num_runners (env : environment) : Z :=
  num_agents env - num_taggers env.

(** Line 291.  The sum is a numpy scalar, and so is its difference with
    the Python integer [env.num_taggers], in the same 64-bit type
    ([env.num_taggers] is taken to be within the range of that type:
    numpy 2 refuses a Python integer outside it). *)
Definition runners_alive (es : episode_states) (env : environment) (i : nat)
  : result Z :=
  match lookup_channel "still_in_the_game" (still_in_the_game es) with
  | Raise e => Raise e
  | Ok flags =>
      match getrow flags i with
      | Raise e => Raise e
      | Ok row =>
          Ok (wrap64 (flags_kind es) (sum (flags_kind es) row - num_taggers env))
      end
  end.

Definition animate (es : episode_states) (env : environment) (sty : style)
    (i : nat) : M figure unit :=
  let* n := gets (fun fig => length (lines fig)) in
  for_each (seq 0 n) (animate_agent es env sty i) >>
  let* alive := lift (runners_alive es env i) in
  let* text := lift (_get_label (NpInt64 (Z.of_nat i))
                       (np_scalar (flags_kind es) alive)
                       (init_num_runners env)) in
  set_text text.

(** What [animation.FuncAnimation] is given: the figure, the callback,
    the frame sequence and the interval (kept as [1000 / fps]). *)
Record animation : Type := mk_animation {
  ani_fig : figure;
  ani_func : nat -> M figure unit;
  ani_frames : list nat;
  ani_interval : Z * Z
}.

(** Lines 186-188: the module is not [None], the states are fetched, and
    what comes back is a dictionary.  Nothing else is checked. *)
Definition fetch_and_validate (module : option warp_drive_module)
  : result (episode_states * environment) :=
  match module with
  | None => Raise AssertionError
  | Some wd =>
      match fetch_episode_states wd ["loc_x"; "loc_y"; "still_in_the_game"]%string with
      | Raise e => Raise e
      | Ok PyOther => Raise AssertionError
      | Ok (PyDict es) => Ok (es, cuda_envs_env wd)
      end
  end.

(** Lines 177-297.  The matplotlib calls that set up the axes are taken
    to return; what can raise is the validation, the reads of the
    snapshot in the plotting loop, the division of line 259 for the first
    label, and [1000.0 / fps] of line 294. *)
Definition generate_tag_env_rollout_animation
    (module : option warp_drive_module) (sty : style) : result animation :=
  match fetch_and_validate module with
  | Raise e => Raise e
  | Ok (es, env) =>
  match map_result (plot_agent es env sty) (range (num_agents env)) with
  | Raise e => Raise e
  | Ok lines0 =>
  match _get_label (PyInt 0) (PyInt (init_num_runners env)) (init_num_runners env) with
  | Raise e => Raise e
  | Ok text0 =>
      if fps sty =? 0 then Raise ZeroDivisionError
      else Ok (mk_animation (mk_figure lines0 text0) (animate es env sty)
                 (range (episode_length env + 1)) (1000, fps sty))
  end end end.

(** Playing the animation: the callback runs once per frame, in the
    order of the frame sequence, on the same artists. *)
Definition play (a : animation) (frames : list nat) : result unit * figure :=
  for_each frames (ani_func a) (ani_fig a).

(** *** Vocabulary of the statements about the renderer *)

(** A snapshot that has all three channels, with a column for each of
    [n] agents and a row of flags for each of [t] timesteps. *)
Definition well_shaped (es : episode_states) (n t : nat) : Prop :=
  exists ax ay fl,
    loc_x es = Some ax /\ loc_y es = Some ay /\ still_in_the_game es = Some fl /\
    (n <= ncols ax)%nat /\ (n <= ncols ay)%nat /\ (n <= ncols fl)%nat /\
    (t <= nrows fl)%nat.

(** A snapshot with both position channels, each with a column for each
    of [n] agents. *)
Definition has_positions (es : episode_states) (n : nat) : Prop :=
  exists ax ay,
    loc_x es = Some ax /\ loc_y es = Some ay /\
    (n <= ncols ax)%nat /\ (n <= ncols ay)%nat.

(** The snapshot lacks the channel of that name. *)
Definition lacks (es : episode_states) (key : string) : Prop :=
  (key = "loc_x"%string /\ loc_x es = None)
  \/ (key = "loc_y"%string /\ loc_y es = None)
  \/ (key = "still_in_the_game"%string /\ still_in_the_game es = None).

(** An exception that, when it is a [KeyError], names a channel the
    snapshot lacks. *)
Definition from_missing_channel (es : episode_states) (e : exn) : Prop :=
  forall k, e = KeyError k -> lacks es k.

(** Flags as WarpDrive writes them: 1 for an agent in the game, 0 for one
    that is out. *)
Definition binary_flags (fl : ndarray Z) : Prop :=
  forall i j, item fl i j = 0 \/ item fl i j = 1.

(** The agent is flagged out of the game in one of the frames before [j]. *)
Definition seen_inactive (fl : ndarray Z) (j idx : nat) : bool :=
  existsb (fun k => item fl k idx =? 0) (seq 0 j).

(** What one pass of the loop body of [animate] does to the marker of
    agent [idx] at frame [i]. *)
Definition agent_step (es : episode_states) (env : environment) (sty : style)
    (i idx : nat) (l : line3d) : line3d :=
  match loc_x es, loc_y es, still_in_the_game es with
  | Some ax, Some ay, Some fl =>
      let l1 := set_data_3d
                  (normalised env (if (i <? nrows ax)%nat then [item ax i idx] else []))
                  (normalised env (if (i <? nrows ay)%nat then [item ay i idx] else []))
                  [fzero] l in
      if negb (item fl i idx =? 0) then l1
      else set_marker "" (set_color (runner_not_in_game_color sty) l1)
  | _, _, _ => l
  end.

(** The marker agent [idx] is first plotted with, on a snapshot that has
    both position channels. *)
Definition initial_line (es : episode_states) (env : environment) (sty : style)
    (idx : nat) : line3d :=
  let first (c : option (ndarray coord)) :=
    match c with
    | Some a => if (0 <? nrows a)%nat then [item a 0 idx] else []
    | None => []
    end in
  mk_line (normalised env (first (loc_x es))) (normalised env (first (loc_y es)))
    (map (fun _ => fzero) (first (loc_x es)))
    (role_color sty env idx) "o" (if is_tagger env idx then 10 else 5).

(** The label [animate] writes at frame [i], given the row of flags and
    their integer kind. *)
Definition frame_label (k : int_kind) (env : environment) (i : nat)
    (row : list Z) : label_text :=
  let alive := wrap64 k (sum k row - num_taggers env) in
  mk_label (NpInt64 (Z.of_nat i)) (np_scalar k alive)
    (if init_num_runners env =? 0 then NonFinite alive
     else Quotient alive (init_num_runners env)).

(** What a step of the animation may do to the markers: their number
    stays, a color stays or becomes the inactive color, a glyph stays or
    is removed. *)
Definition no_reset (sty : style) (fig fig' : figure) : Prop :=
  length (lines fig') = length (lines fig) /\
  forall idx l l',
    lines fig !! idx = Some l -> lines fig' !! idx = Some l' ->
    (color l' = color l \/ color l' = runner_not_in_game_color sty) /\
    (marker l' = marker l \/ marker l' = ""%string).

(** A module whose snapshot the renderer can plot and animate for [t]
    timesteps: the fetch returns the dictionary [es], which has the three
    channels in the shape of the environment, there is at least one
    runner (or fewer agents than taggers), and [fps] is not zero. *)
Definition renderable (wd : warp_drive_module) (sty : style)
    (es : episode_states) (t : nat) : Prop :=
  fetch_episode_states wd ["loc_x"; "loc_y"; "still_in_the_game"]%string
    = Ok (PyDict es)
  /\ well_shaped es (Z.to_nat (num_agents (cuda_envs_env wd))) t
  /\ init_num_runners (cuda_envs_env wd) <> 0
  /\ fps sty <> 0.

(** Whether an agent's marker shows it as out of the game. *)
Definition shown_inactive (sty : style) (l : line3d) : Prop :=
  color l = runner_not_in_game_color sty /\ marker l = ""%string.

End Rendering.

End Renderer.

(** ** Python's [/] on integers (line 330) *)

Module TrueDivide.

(** CPython's [int / int] returns the binary64 number nearest to the
    exact quotient, ties to even; it raises [ZeroDivisionError] on a
    zero divisor and [OverflowError] when the quotient is beyond the
    range of a float.  The result is a [spec_float] in canonical form:
    53 significant bits for a normal number, exponent -1074 for a
    subnormal one. *)

(** The integer nearest to [n / d], ties to even, for [0 <= n], [0 < d]. *)
Definition round_half_even (n d : Z) : Z :=
  let q := n / d in
  let r := n mod d in
  match 2 * r ?= d with
  | Lt => q
  | Gt => q + 1
  | Eq => if Z.even q then q else q + 1
  end.

(** [n / d < 2 ^ k] *)
Definition below_pow2 (n d k : Z) : bool :=
  if 0 <=? k then n <? d * 2 ^ k else n * 2 ^ (- k) <? d.

(** [floor (log2 (n / d))] for [0 < n], [0 < d]. *)
Definition ilog2 (n d : Z) : Z :=
  let k := Z.log2 n - Z.log2 d in
  if below_pow2 n d k then k - 1 else k.

(** The fraction [(n / d) * 2 ^ (- e)] as a pair. *)
Definition scale (n d e : Z) : Z * Z :=
  if e <? 0 then (n * 2 ^ (- e), d) else (n, d * 2 ^ e).

(** A mantissa that rounding carried up to [2 ^ 53] takes the next
    exponent. *)
Definition normalise (m e : Z) : Z * Z :=
  if m =? 2 ^ 53 then (2 ^ 52, e + 1) else (m, e).

Definition round_to_binary64 (s : bool) (n d : Z) : result spec_float :=
  let e := Z.max (ilog2 n d - 52) (- 1074) in
  let '(n', d') := scale n d e in
  let '(m, e') := normalise (round_half_even n' d') e in
  if m =? 0 then Ok (S754_zero s)
  else if 971 <? e' then Raise OverflowError
  else Ok (S754_finite s (Z.to_pos m) e').

Definition int_true_divide (a b : Z) : result spec_float :=
  if b =? 0 then Raise ZeroDivisionError
  else if a =? 0 then Ok (S754_zero (b <? 0))
  else round_to_binary64 (xorb (a <? 0) (b <? 0)) (Z.abs a) (Z.abs b).

(** [float.is_integer()] *)
Definition is_integer (f : spec_float) : bool :=
  match f with
  | S754_zero _ => true
  | S754_finite _ m e => (0 <=? e) || (Zpos m mod 2 ^ (- e) =? 0)
  | S754_infinity _ | S754_nan => false
  end.

(** [int(f)] for a float that is integer-valued. *)
Definition integer_value (f : spec_float) : option Z :=
  match f with
  | S754_zero _ => Some 0
  | S754_finite s m e =>
      let magnitude :=
        if 0 <=? e then Some (Zpos m * 2 ^ e)
        else if Zpos m mod 2 ^ (- e) =? 0 then Some (Zpos m / 2 ^ (- e))
        else None in
      option_map (fun z => if s then - z else z) magnitude
  | S754_infinity _ | S754_nan => None
  end.

(** A decimal literal [n / d] of the source text: Python reads it as the
    nearest binary64 number. *)
Definition literal (n d : Z) : spec_float :=
  match int_true_divide n d with
  | Ok f => f
  | Raise _ => S754_nan
  end.

End TrueDivide.

(** ** The run configuration (lines 54-141) *)

Module Config.

Import TrueDivide.

#[local] Set Warnings "-register-all".

(** The Python values a configuration holds.  A dictionary keeps its
    insertion order. *)
Inductive pyval : Type :=
| PInt (z : Z)
| PFloat (f : spec_float)
| PStr (s : string)
| PBool (b : bool)
| PList (l : list pyval)
| PDict (d : list (string * pyval)).

Fixpoint assoc (k : string) (d : list (string * pyval)) : option pyval :=
  match d with
  | [] => None
  | (k', v) :: d' => if String.eqb k k' then Some v else assoc k d'
  end.

(** [v[k]] *)
Definition subscript (v : pyval) (k : string) : result pyval :=
  match v with
  | PDict d =>
      match assoc k d with
      | Some x => Ok x
      | None => Raise (KeyError k)
      end
  | _ => Raise TypeError
  end.

(** [v[k1][k2]...] *)
Fixpoint subscripts (v : pyval) (ks : list string) : result pyval :=
  match ks with
  | [] => Ok v
  | k :: ks' =>
      match subscript v k with
      | Ok x => subscripts x ks'
      | Raise e => Raise e
      end
  end.

Definition model_settings : pyval :=
  PDict [("type", PStr "fully_connected");
         ("fc_dims", PList [PInt 256; PInt 256]);
         ("model_ckpt_filepath", PStr "")]%string.

Definition run_config : pyval :=
  PDict [
    ("name", PStr "tag_continuous");
    ("env", PDict [
       ("num_taggers", PInt 5);
       ("num_runners", PInt 100);
       ("grid_length", PFloat (literal 200 10));
       ("episode_length", PInt 200);
       ("max_acceleration", PFloat (literal 1 10));
       ("min_acceleration", PFloat (literal (-1) 10));
       ("max_turn", PFloat (literal 235 100));
       ("min_turn", PFloat (literal (-235) 100));
       ("num_acceleration_levels", PInt 10);
       ("num_turn_levels", PInt 10);
       ("skill_level_tagger", PFloat (literal 10 10));
       ("skill_level_runner", PFloat (literal 10 10));
       ("use_full_observation", PBool false);
       ("runner_exits_game_after_tagged", PBool true);
       ("num_other_agents_observed", PInt 10);
       ("tag_reward_for_tagger", PFloat (literal 100 10));
       ("tag_penalty_for_runner", PFloat (literal (-100) 10));
       ("end_of_game_reward_for_runner", PFloat (literal 10 10));
       ("tagging_distance", PFloat (literal 2 100))]);
    ("trainer", PDict [
       ("num_envs", PInt 50);
       ("train_batch_size", PInt 10000);
       ("num_episodes", PInt 50000)]);
    ("policy", PDict [
       ("runner", PDict [
          ("to_train", PBool true);
          ("algorithm", PStr "A2C");
          ("gamma", PFloat (literal 98 100));
          ("lr", PFloat (literal 5 1000));
          ("model", model_settings)]);
       ("tagger", PDict [
          ("to_train", PBool true);
          ("algorithm", PStr "A2C");
          ("gamma", PFloat (literal 98 100));
          ("lr", PFloat (literal 2 1000));
          ("model", model_settings)])]);
    ("saving", PDict [
       ("metrics_log_freq", PInt 10);
       ("model_params_save_freq", PInt 5000);
       ("basedir", PStr "/tmp");
       ("name", PStr "continuous_tag");
       ("tag", PStr "example")])]%string.

End Config.

(** ** The driver: the top-level statements of the script *)

Module Driver.

Import TrueDivide Config.

(** The calls the script makes into its collaborators, in the order of
    the source text. *)
Inductive ext_call : Type :=
| Imports                (* lines 19-32 *)
| DeviceCount            (* line 35: torch.cuda.device_count() *)
| SetLevel               (* line 40 *)
| MkTagContinuous        (* line 152 *)
| MkEnvWrapper           (* line 151 *)
| GetTaggers             (* line 159 *)
| GetRunners             (* line 160 *)
| MkWarpDriveModule      (* line 163 *)
| MkCudaCallback         (* line 317 *)
| GetTrainingBatchSize   (* line 319 *)
| GetNumIters            (* line 320 *)
| MkPerfStatsCallback    (* line 318 *)
| MkTrainer              (* line 332 *)
| Fit                    (* line 352 *)
| GracefulClose          (* line 367 *).

Definition ext_call_eqb (a b : ext_call) : bool :=
  match a, b with
  | Imports, Imports | DeviceCount, DeviceCount | SetLevel, SetLevel
  | MkTagContinuous, MkTagContinuous | MkEnvWrapper, MkEnvWrapper
  | GetTaggers, GetTaggers | GetRunners, GetRunners
  | MkWarpDriveModule, MkWarpDriveModule | MkCudaCallback, MkCudaCallback
  | GetTrainingBatchSize, GetTrainingBatchSize | GetNumIters, GetNumIters
  | MkPerfStatsCallback, MkPerfStatsCallback | MkTrainer, MkTrainer
  | Fit, Fit | GracefulClose, GracefulClose => true
  | _, _ => false
  end.

(** The calls that are handed the configuration object itself, or an
    object that holds it: [WarpDriveModule(config=run_config)] and every
    later call on, or with, [wd_module].  [TagContinuous] receives the
    unpacked entries of [run_config["env"]], [EnvWrapper] and
    [PerfStatsCallback] receive numbers. *)
Definition reaches_config (c : ext_call) : bool :=
  match c with
  | MkWarpDriveModule | MkCudaCallback | GetTrainingBatchSize | GetNumIters
  | MkTrainer | Fit | GracefulClose => true
  | _ => false
  end.

(** Everything the script does not decide itself. *)
Record world : Type := mk_world {
  (** what [torch.cuda.device_count()] returns *)
  gpus : nat;
  (** [None] when the call returns normally *)
  outcome : ext_call -> option exn;
  (** what a callee that holds the configuration object does to it *)
  effect : ext_call -> pyval -> pyval;
  (** arithmetic on operands that are not all integers *)
  other_arith : pyval -> pyval -> pyval -> result pyval
}.

(** The store of the script: the object bound to [run_config] (if the
    assignment has run), and the calls made so far. *)
Record state : Type := mk_state {
  config_object : option pyval;
  trace : list ext_call
}.

Definition call (w : world) (c : ext_call) : M state unit :=
  fun st =>
    let cfg := if reaches_config c
               then option_map (effect w c) (config_object st)
               else config_object st in
    let st' := mk_state cfg (trace st ++ [c]) in
    match outcome w c with
    | None => (Ok tt, st')
    | Some e => (Raise e, st')
    end.

(** [assert cond] *)
Definition py_assert (cond : bool) : M state unit :=
  if cond then ret tt else lift (Raise AssertionError).

(** Lines 35-36. *)
Definition gpu_check (_NUM_AVAILABLE_GPUS : nat) : M state unit :=
  py_assert (0 <? _NUM_AVAILABLE_GPUS)%nat.

(** Line 54: [run_config = dict(...)]. *)
Definition assign_run_config : M state unit :=
  modify (fun st => mk_state (Some run_config) (trace st)).

(** [run_config[k1][k2]...] *)
Definition read_config (ks : list string) : M state pyval :=
  fun st =>
    match config_object st with
    | Some v => (subscripts v ks, st)
    | None => (Raise NameError, st)
    end.

(** Line 330 on integers. *)
Definition num_epochs (num_episodes episode_length training_batch_size : Z)
  : result spec_float :=
  int_true_divide (num_episodes * episode_length) training_batch_size.

(** Line 330 on whatever the three reads returned. *)
Definition compute_num_epochs (w : world) (a b c : pyval) : result pyval :=
  match a, b, c with
  | PInt num_episodes, PInt episode_length, PInt training_batch_size =>
      match num_epochs num_episodes episode_length training_batch_size with
      | Ok f => Ok (PFloat f)
      | Raise e => Raise e
      end
  | _, _, _ => other_arith w a b c
  end.

Definition script (w : world) : M state unit :=
  call w Imports >>
  call w DeviceCount >>
  gpu_check (gpus w) >>
  call w SetLevel >>
  assign_run_config >>
  let* env_settings := read_config ["env"]%string in
  call w MkTagContinuous >>
  let* num_envs := read_config ["trainer"; "num_envs"]%string in
  call w MkEnvWrapper >>
  call w GetTaggers >>
  call w GetRunners >>
  call w MkWarpDriveModule >>
  let* log_freq := read_config ["saving"; "metrics_log_freq"]%string in
  call w MkCudaCallback >>
  call w GetTrainingBatchSize >>
  call w GetNumIters >>
  call w MkPerfStatsCallback >>
  let* num_episodes := read_config ["trainer"; "num_episodes"]%string in
  let* episode_length := read_config ["env"; "episode_length"]%string in
  let* training_batch_size := read_config ["trainer"; "train_batch_size"]%string in
  let* max_epochs :=
    lift (compute_num_epochs w num_episodes episode_length training_batch_size) in
  call w MkTrainer >>
  call w Fit >>
  call w GracefulClose.

Definition run (w : world) : result unit * state :=
  script w (mk_state None []).

(** The calls of a run in which nothing raises. *)
Definition full_trace : list ext_call :=
  [Imports; DeviceCount; SetLevel; MkTagContinuous; MkEnvWrapper; GetTaggers;
   GetRunners; MkWarpDriveModule; MkCudaCallback; GetTrainingBatchSize;
   GetNumIters; MkPerfStatsCallback; MkTrainer; Fit; GracefulClose].

(** A world in which every collaborator behaves: [n] GPUs, no call
    raises, nobody writes to the configuration. *)
Definition quiet_world (n : nat) : world :=
  mk_world n (fun _ => None) (fun _ v => v) (fun _ _ _ => Raise TypeError).

(** *** Vocabulary of the statements about the driver *)

(** If [graceful_close] is called in the course of [m], then the calls
    [m] made are exactly [cs], and [P] holds of the result. *)
Definition closing (P : result unit -> Prop) (cs : list ext_call)
    (m : M state unit) : Prop :=
  forall st r st',
    m st = (r, st') -> ~ In GracefulClose (trace st) ->
    In GracefulClose (trace st') ->
    trace st' = trace st ++ cs /\ P r.

(** What a call leaves as the result of the statement it is. *)
Definition result_of (w : world) (c : ext_call) : result unit :=
  match outcome w c with
  | None => Ok tt
  | Some e => Raise e
  end.

(** How often a call occurs in a trace. *)
Definition times_called (c : ext_call) (tr : list ext_call) : nat :=
  length (List.filter (ext_call_eqb c) tr).

(** The script got as far as [graceful_close]: there is a GPU, and every
    call before it returned. *)
Definition all_returned (w : world) : Prop :=
  (0 < gpus w)%nat /\ forall c, c <> GracefulClose -> outcome w c = None.

(** A normal return of [m] leaves the configuration object bound to the
    value of the literal. *)
Definition settled {A} (m : M state A) : Prop :=
  forall st a st', m st = (Ok a, st') -> config_object st' = Some run_config.

(** A step that leaves the configuration object as the literal made it. *)
Definition keeps_config (st st' : state) : Prop :=
  config_object st = Some run_config -> config_object st' = Some run_config.

(** The calls [m] makes are the first of [cs], in that order, and all of
    [cs] when [m] returns normally. *)
Definition in_order (cs : list ext_call) (m : M state unit) : Prop :=
  forall st r st',
    m st = (r, st') ->
    exists made rest,
      trace st' = trace st ++ made /\ cs = made ++ rest
      /\ (r = Ok tt -> rest = []).

(** A normal return of [m] has called [graceful_close]. *)
Definition reaches_close {A} (m : M state A) : Prop :=
  forall st a st', m st = (Ok a, st') -> In GracefulClose (trace st').

(** A step that makes no call. *)
Definition silent {A} (m : M state A) : Prop :=
  keeps (fun st st' => trace st' = trace st) m.

(** The calls made are never forgotten. *)
Definition remembers (st st' : state) : Prop :=
  forall c, In c (trace st) -> In c (trace st').

(** The configuration object is either not yet bound, or is the value
    of the literal. *)
Definition pristine (st : state) : Prop :=
  config_object st = None \/ config_object st = Some run_config.

(** What the calls of a trace make of a configuration: each call that
    holds the object applies its effect, in the order of the calls. *)
Definition written_by (w : world) (tr : list ext_call) (v : pyval) : pyval :=
  fold_left (fun v c => if reaches_config c then effect w c v else v) tr v.

(** A world with one GPU in which every call returns, and in which the
    constructor of [WarpDriveModule] adds an entry to the dictionary it
    is given (as a constructor that fills in defaults does). *)
Definition appending_world : world :=
  mk_world 1 (fun _ => None)
    (fun c v =>
       match c, v with
       | MkWarpDriveModule, PDict d => PDict (d ++ [("seed"%string, PInt 0)])
       | _, _ => v
       end)
    (fun _ _ _ => Raise TypeError).

(** The collaborators that hold the configuration object do not write
    to it. *)
Definition read_only_collaborators (w : world) : Prop :=
  forall c v, reaches_config c = true -> effect w c v = v.

End Driver.

(** ** Concrete snapshots, on which the statements below are run *)

Module Samples.

Import TrueDivide Renderer.

(** Positions as binary64 numbers, divided as IEEE 754 divides. *)
Definition binary64 : Coord :=
  mk_coord spec_float (SFdiv 53 1024) (S754_zero false).

Definition all_channels : list string :=
  ["loc_x"; "loc_y"; "still_in_the_game"]%string.

(** Three agents (agent 0 is the tagger) on a 20 x 20 grid, three
    timesteps. *)
Definition small_env : @environment binary64 :=
  @mk_env binary64 3 1 [0%nat] (literal 200 10) 2.

Definition positions : ndarray spec_float :=
  mk_ndarray 3 3 (fun i j => literal (Z.of_nat (1 + i + 5 * j)) 1).

(** Agent 1 is tagged at timestep 1, agent 2 at timestep 2. *)
Definition flags : ndarray Z :=
  of_rows 0 3 [[1; 1; 1]; [1; 0; 1]; [1; 0; 0]].

Definition small_states : @episode_states binary64 :=
  @mk_states binary64 (Some positions) (Some positions) (Some flags) Signed.

Definition small_module : @warp_drive_module binary64 :=
  mk_module (fun _ => Ok (PyDict small_states)) small_env.

(** A snapshot in which every agent, the tagger too, is flagged out at
    timestep 1. *)
Definition all_out_flags : ndarray Z :=
  of_rows 0 3 [[1; 1; 1]; [0; 0; 0]; [0; 0; 0]].

Definition all_out_module : @warp_drive_module binary64 :=
  mk_module
    (fun _ => Ok (PyDict (@mk_states binary64 (Some positions) (Some positions)
                            (Some all_out_flags) Signed)))
    small_env.

(** The same snapshot with its flags stored as unsigned bytes. *)
Definition unsigned_all_out_module : @warp_drive_module binary64 :=
  mk_module
    (fun _ => Ok (PyDict (@mk_states binary64 (Some positions) (Some positions)
                            (Some all_out_flags) Unsigned)))
    small_env.

(** An environment whose only agent is a tagger. *)
Definition no_runner_module : @warp_drive_module binary64 :=
  mk_module (fun _ => Ok (PyDict small_states))
    (@mk_env binary64 1 1 [0%nat] (literal 200 10) 2).

(** Snapshots that lack a channel. *)
Definition states_without_x : @episode_states binary64 :=
  @mk_states binary64 None (Some positions) (Some flags) Signed.

Definition module_without_x : @warp_drive_module binary64 :=
  mk_module (fun _ => Ok (PyDict states_without_x)) small_env.

Definition states_without_flags : @episode_states binary64 :=
  @mk_states binary64 (Some positions) (Some positions) None Signed.

Definition module_without_flags : @warp_drive_module binary64 :=
  mk_module (fun _ => Ok (PyDict states_without_flags)) small_env.

(** The figure the renderer builds for the small snapshot. *)
Definition small_figure : @figure binary64 :=
  mk_figure (map (initial_line small_states small_env default_style) [0; 1; 2]%nat)
    (mk_label (PyInt 0) (PyInt 2) (Quotient 2 2)).

(** Positions for two agents only, where the environment has three. *)
Definition narrow_positions : ndarray spec_float :=
  mk_ndarray 3 2 (fun i j => literal (Z.of_nat (1 + i + 5 * j)) 1).

Definition narrow_states : @episode_states binary64 :=
  @mk_states binary64 (Some narrow_positions) (Some positions) (Some flags) Signed.

Definition narrow_module : @warp_drive_module binary64 :=
  mk_module (fun _ => Ok (PyDict narrow_states)) small_env.

(** Flags for two timesteps only, where the episode has three frames. *)
Definition short_flags : ndarray Z :=
  of_rows 0 3 [[1; 1; 1]; [1; 0; 1]].

Definition short_states : @episode_states binary64 :=
  @mk_states binary64 (Some positions) (Some positions) (Some short_flags) Signed.

Definition short_module : @warp_drive_module binary64 :=
  mk_module (fun _ => Ok (PyDict short_states)) small_env.

(** An environment with a negative episode length. *)
Definition negative_length_module : @warp_drive_module binary64 :=
  mk_module (fun _ => Ok (PyDict small_states))
    (@mk_env binary64 3 1 [0%nat] (literal 200 10) (-3)).

(** The default style at zero frames per second. *)
Definition still_style : style :=
  mk_style 0 "#C843C3" "#245EB6" "#666666" 6 6.

End Samples.

(** * Properties *)

(** ** The store monad *)

Module PyFacts.

Lemma bind_ok {S A B} (m : M S A) (k : A -> M S B) s a s' :
  m s = (Ok a, s') -> bind m k s = k a s'.
Proof. intros H. unfold bind. now rewrite H. Qed.

Lemma bind_raise {S A B} (m : M S A) (k : A -> M S B) s e s' :
  m s = (Raise e, s') -> bind m k s = (Raise e, s').
Proof. intros H. unfold bind. now rewrite H. Qed.

Lemma for_each_app {S X} (xs ys : list X) (body : X -> M S unit) s :
  for_each (xs ++ ys) body s = bind (for_each xs body) (fun _ => for_each ys body) s.
Proof.
  revert s. induction xs as [|x xs IH]; intros s; simpl.
  - reflexivity.
  - unfold bind. destruct (body x s) as [[[]|e] s1]; [| reflexivity].
    rewrite IH. reflexivity.
Qed.

Section Keeps.

Context {S : Type} (R : S -> S -> Prop).
Hypothesis R_refl : forall s, R s s.
Hypothesis R_trans : forall s1 s2 s3, R s1 s2 -> R s2 s3 -> R s1 s3.

Lemma keeps_ret {A} (a : A) : keeps R (ret a).
Proof. intros s r s' [= <- <-]. apply R_refl. Qed.

Lemma keeps_lift {A} (x : result A) : keeps R (lift x).
Proof. intros s r s' [= <- <-]. apply R_refl. Qed.

Lemma keeps_gets {A} (f : S -> A) : keeps R (gets f).
Proof. intros s r s' [= <- <-]. apply R_refl. Qed.

Lemma keeps_bind {A B} (m : M S A) (k : A -> M S B) :
  keeps R m -> (forall a, keeps R (k a)) -> keeps R (bind m k).
Proof.
  intros Hm Hk s r s'. unfold bind.
  destruct (m s) as [[a|e] s1] eqn:E.
  - intros H. eapply R_trans; [eapply Hm, E | eapply Hk, H].
  - intros [= <- <-]. eapply Hm, E.
Qed.

Lemma keeps_for_each {X} (xs : list X) (body : X -> M S unit) :
  (forall x, keeps R (body x)) -> keeps R (for_each xs body).
Proof.
  intros Hb. induction xs as [|x xs IH]; simpl.
  - apply keeps_ret.
  - apply keeps_bind; [apply Hb | intros _; apply IH].
Qed.

End Keeps.

Section RaisesOnly.

Context {S : Type} (P : exn -> Prop).

Lemma raises_only_ret {A} (a : A) : raises_only (S:=S) P (ret a).
Proof. intros s e s' [=]. Qed.

Lemma raises_only_modify (f : S -> S) : raises_only P (modify f).
Proof. intros s e s' [=]. Qed.

Lemma raises_only_gets {A} (f : S -> A) : raises_only P (gets f).
Proof. intros s e s' [=]. Qed.

Lemma raises_only_lift {A} (x : result A) :
  (forall e, x = Raise e -> P e) -> raises_only (S:=S) P (lift x).
Proof. intros H s e s' [= -> _]. now apply H. Qed.

Lemma raises_only_bind {A B} (m : M S A) (k : A -> M S B) :
  raises_only P m -> (forall a, raises_only P (k a)) -> raises_only P (bind m k).
Proof.
  intros Hm Hk s e s'. unfold bind.
  destruct (m s) as [[a|e'] s1] eqn:E.
  - intros H. eapply Hk, H.
  - intros [= <- <-]. eapply Hm, E.
Qed.

Lemma raises_only_for_each {X} (xs : list X) (body : X -> M S unit) :
  (forall x, raises_only P (body x)) -> raises_only P (for_each xs body).
Proof.
  intros Hb. induction xs as [|x xs IH]; simpl.
  - apply raises_only_ret.
  - apply raises_only_bind; [apply Hb | intros _; apply IH].
Qed.

End RaisesOnly.

End PyFacts.

(** ** The renderer *)

Module RendererFacts.

Import PyFacts Renderer.

Section Arrays.

Context {A : Type}.
Implicit Types a : ndarray A.

Lemma getslice_ok a i j :
  (j < ncols a)%nat ->
  getslice a i j = Ok (if (i <? nrows a)%nat then [item a i j] else []).
Proof.
  intros Hj. unfold getslice.
  destruct (Nat.ltb_spec j (ncols a)); [reflexivity | lia].
Qed.

Lemma getitem_ok a i j :
  (i < nrows a)%nat -> (j < ncols a)%nat -> getitem a i j = Ok (item a i j).
Proof.
  intros Hi Hj. unfold getitem.
  destruct (Nat.ltb_spec i (nrows a)); [| lia].
  destruct (Nat.ltb_spec j (ncols a)); [reflexivity | lia].
Qed.

Lemma getrow_ok a i :
  (i < nrows a)%nat -> getrow a i = Ok (map (item a i) (seq 0 (ncols a))).
Proof.
  intros Hi. unfold getrow.
  destruct (Nat.ltb_spec i (nrows a)); [reflexivity | lia].
Qed.

Lemma map_result_ok {X} (f : X -> result A) (g : X -> A) (l : list X) :
  (forall x, In x l -> f x = Ok (g x)) -> map_result f l = Ok (map g l).
Proof.
  induction l as [|x l IH]; intros H; simpl.
  - reflexivity.
  - rewrite (H x) by now left.
    rewrite IH by (intros y Hy; apply H; now right).
    reflexivity.
Qed.

Lemma map_result_raise {X} (f : X -> result A) (x : X) (l : list X) e :
  f x = Raise e -> map_result f (x :: l) = Raise e.
Proof. intros H. simpl. now rewrite H. Qed.

End Arrays.

(** On 0/1 flags the entries of a row add up to the number of its
    active agents. *)
Lemma total_count_active (row : list Z) :
  (forall v, In v row -> v = 0 \/ v = 1) ->
  fold_right Z.add 0 row = count_active row.
Proof.
  unfold count_active.
  induction row as [|v row IH]; intros H; simpl.
  - reflexivity.
  - rewrite IH by (intros u Hu; apply H; now right).
    destruct (H v (or_introl eq_refl)) as [-> | ->]; simpl; lia.
Qed.

(** *** 64-bit arithmetic *)

Lemma wrap64_minus (k : int_kind) (a b : Z) :
  wrap64 k (wrap64 k a - b) = wrap64 k (a - b).
Proof.
  destruct k; unfold wrap64.
  - f_equal.
    replace ((a + 2 ^ 63) mod 2 ^ 64 - 2 ^ 63 - b + 2 ^ 63)
      with ((a + 2 ^ 63) mod 2 ^ 64 - b) by lia.
    rewrite Zminus_mod_idemp_l. f_equal. lia.
  - apply Zminus_mod_idemp_l.
Qed.

Lemma wrap64_signed (z : Z) :
  - 2 ^ 63 <= z < 2 ^ 63 -> wrap64 Signed z = z.
Proof.
  intros H. unfold wrap64.
  rewrite Z.mod_small; [lia |].
  change (2 ^ 64) with (2 ^ 63 + 2 ^ 63). lia.
Qed.

Lemma wrap64_unsigned (z : Z) :
  0 <= z < 2 ^ 64 -> wrap64 Unsigned z = z.
Proof. intros H. unfold wrap64. now apply Z.mod_small. Qed.

Lemma wrap64_unsigned_negative (z : Z) :
  - 2 ^ 64 <= z < 0 -> wrap64 Unsigned z = 2 ^ 64 + z.
Proof.
  intros H. unfold wrap64.
  replace z with (2 ^ 64 + z + (-1) * 2 ^ 64) at 1 by lia.
  rewrite Z.mod_add by discriminate. apply Z.mod_small. lia.
Qed.

Lemma count_active_le_length (row : list Z) :
  count_active row <= Z.of_nat (length row).
Proof.
  unfold count_active.
  assert (length (List.filter (fun v => negb (v =? 0)%Z) row) <= length row)%nat;
    [| lia].
  induction row as [|v row IH]; simpl; [lia |].
  destruct (negb (v =? 0)); simpl; lia.
Qed.

(** What [animate] shows on 0/1 flags: the number of active agents less
    the taggers, in the 64-bit arithmetic of the flags' kind. *)
Lemma shown_count (k : int_kind) (row : list Z) (taggers : Z) :
  (forall v, In v row -> v = 0 \/ v = 1) ->
  wrap64 k (sum k row - taggers) = wrap64 k (count_active row - taggers).
Proof.
  intros H. unfold sum. now rewrite wrap64_minus, total_count_active.
Qed.

Lemma count_active_nonneg (row : list Z) : 0 <= count_active row.
Proof. unfold count_active. lia. Qed.

Lemma seen_inactive_S (fl : ndarray Z) (j idx : nat) :
  seen_inactive fl (S j) idx = seen_inactive fl j idx || (item fl j idx =? 0).
Proof.
  unfold seen_inactive. rewrite seq_S, existsb_app. simpl.
  now rewrite orb_false_r.
Qed.

Lemma seen_inactive_false (fl : ndarray Z) (j idx : nat) :
  (forall k, (k < j)%nat -> item fl k idx <> 0) -> seen_inactive fl j idx = false.
Proof.
  induction j as [|j IH]; intros H.
  - reflexivity.
  - rewrite seen_inactive_S, IH by (intros k Hk; apply H; lia).
    simpl. apply Z.eqb_neq, H. lia.
Qed.

Lemma seen_inactive_true (fl : ndarray Z) (i j idx : nat) :
  (i < j)%nat -> item fl i idx = 0 -> seen_inactive fl j idx = true.
Proof.
  intros Hij Hi. unfold seen_inactive. apply existsb_exists.
  exists i. split; [apply in_seq; lia | now apply Z.eqb_eq].
Qed.

Section Rendering.

Context {C : Coord}.
Variables (es : episode_states) (env : environment) (sty : style).

(** *** One frame *)

Lemma animate_agent_ok n t i idx fig :
  well_shaped es n t -> (i < t)%nat -> (idx < n)%nat ->
  animate_agent es env sty i idx fig
  = (Ok tt, mk_figure (alter (agent_step es env sty i idx) idx (lines fig)) (label fig)).
Proof.
  intros (ax & ay & fl & Hx & Hy & Hf & Hnx & Hny & Hnf & Ht) Hi Hidx.
  unfold animate_agent, agent_step. rewrite Hx, Hy, Hf.
  unfold bind, lift, lookup_channel, update_line, modify, ret.
  rewrite !getslice_ok by lia. rewrite getitem_ok by lia. simpl.
  destruct (item fl i idx =? 0); simpl.
  - rewrite !list_alter_alter_eq. reflexivity.
  - reflexivity.
Qed.

Lemma animate_loop n t i :
  well_shaped es n t -> (i < t)%nat ->
  forall k a ls lab, (a + k <= n)%nat ->
  exists ls',
    for_each (seq a k) (animate_agent es env sty i) (mk_figure ls lab)
    = (Ok tt, mk_figure ls' lab)
    /\ forall idx,
         ls' !! idx = if (a <=? idx)%nat && (idx <? a + k)%nat
                      then agent_step es env sty i idx <$> ls !! idx
                      else ls !! idx.
Proof.
  intros Hw Hi. induction k as [|k IH]; intros a ls lab Hk; simpl.
  - exists ls. split; [reflexivity |]. intros idx.
    destruct (Nat.leb_spec a idx), (Nat.ltb_spec idx (a + 0)); simpl; try reflexivity; lia.
  - unfold bind at 1. rewrite (animate_agent_ok n t) by (assumption || lia). simpl.
    destruct (IH (S a) (alter (agent_step es env sty i a) a ls) lab) as (ls' & Hrun & Hls');
      [lia |].
    exists ls'. split; [exact Hrun |]. intros idx. rewrite Hls'.
    destruct (Nat.eq_dec a idx) as [<- | Hne].
    + rewrite list_lookup_alter_eq.
      destruct (Nat.leb_spec (S a) a), (Nat.leb_spec a a), (Nat.ltb_spec a (a + S k));
        simpl; try reflexivity; lia.
    + rewrite list_lookup_alter_ne by assumption.
      destruct (Nat.leb_spec (S a) idx), (Nat.leb_spec a idx),
        (Nat.ltb_spec idx (S a + k)), (Nat.ltb_spec idx (a + S k));
        simpl; try reflexivity; lia.
Qed.

Lemma animate_ok n t i fig fl :
  well_shaped es n t -> still_in_the_game es = Some fl ->
  (i < t)%nat -> (length (lines fig) <= n)%nat ->
  animate es env sty i fig
  = (Ok tt, mk_figure (imap (agent_step es env sty i) (lines fig))
              (frame_label (flags_kind es) env i
                 (map (item fl i) (seq 0 (ncols fl))))).
Proof.
  intros Hw Hf Hi Hlen. unfold animate.
  unfold bind at 1, gets. unfold bind at 1.
  destruct fig as [ls lab]; simpl in *.
  destruct (animate_loop n t i Hw Hi (length ls) 0%nat ls lab) as (ls' & -> & Hls');
    [lia |].
  assert (ls' = imap (agent_step es env sty i) ls) as ->.
  { apply list_eq. intros idx. rewrite Hls', list_lookup_imap. simpl.
    destruct (Nat.ltb_spec idx (length ls)); [reflexivity |].
    rewrite lookup_ge_None_2 by lia. reflexivity. }
  destruct Hw as (ax & ay & fl' & Hx & Hy & Hf' & Hnx & Hny & Hnf & Ht).
  rewrite Hf in Hf'. injection Hf' as <-.
  unfold bind, lift, runners_alive, lookup_channel. rewrite Hf.
  rewrite getrow_ok by lia.
  unfold _get_label, true_divide, frame_label, set_text, modify. simpl.
  destruct (init_num_runners env =? 0), (flags_kind es); reflexivity.
Qed.

Lemma agent_step_color n t fl i idx l :
  well_shaped es n t -> still_in_the_game es = Some fl ->
  color (agent_step es env sty i idx l)
  = (if item fl i idx =? 0 then runner_not_in_game_color sty else color l)
  /\ marker (agent_step es env sty i idx l)
    = (if item fl i idx =? 0 then ""%string else marker l).
Proof.
  intros (ax & ay & fl' & Hx & Hy & Hf' & _) Hf. unfold agent_step.
  rewrite Hx, Hy, Hf. destruct (item fl i idx =? 0); simpl; split; reflexivity.
Qed.

(** *** A run of frames *)

Lemma render_frames n t fl fig0 :
  well_shaped es n t -> still_in_the_game es = Some fl ->
  (length (lines fig0) <= n)%nat ->
  forall j, (j <= t)%nat ->
  exists fig,
    for_each (seq 0 j) (animate es env sty) fig0 = (Ok tt, fig)
    /\ length (lines fig) = length (lines fig0)
    /\ forall idx l0, lines fig0 !! idx = Some l0 ->
        exists l, lines fig !! idx = Some l
          /\ color l = (if seen_inactive fl j idx
                        then runner_not_in_game_color sty else color l0)
          /\ marker l = (if seen_inactive fl j idx then ""%string else marker l0).
Proof.
  intros Hw Hf Hlen. induction j as [|j IH]; intros Hj.
  - exists fig0. split; [reflexivity |]. split; [reflexivity |].
    intros idx l0 H0. exists l0. auto.
  - destruct IH as (fig & Hrun & Hlen' & Hlines); [lia |].
    rewrite seq_S, for_each_app. rewrite (bind_ok _ _ _ _ _ Hrun). simpl.
    unfold bind at 1. rewrite (animate_ok n t j fig fl) by (assumption || lia).
    eexists. split; [reflexivity |]. simpl. split.
    + now rewrite length_imap.
    + intros idx l0 H0. destruct (Hlines idx l0 H0) as (l & Hl & Hc & Hm).
      exists (agent_step es env sty j idx l). split.
      * rewrite list_lookup_imap, Hl. reflexivity.
      * destruct (agent_step_color n t fl j idx l Hw Hf) as [-> ->].
        rewrite seen_inactive_S, Hc, Hm.
        destruct (seen_inactive fl j idx), (item fl j idx =? 0); simpl; auto.
Qed.

(** *** What no frame undoes *)

Lemma no_reset_refl fig : no_reset sty fig fig.
Proof.
  split; [reflexivity |]. intros idx l l' H H'.
  rewrite H in H'. injection H' as <-. auto.
Qed.

Lemma no_reset_trans fig1 fig2 fig3 :
  no_reset sty fig1 fig2 -> no_reset sty fig2 fig3 -> no_reset sty fig1 fig3.
Proof.
  intros [Hl12 H12] [Hl23 H23]. split; [congruence |].
  intros idx l l3 H1 H3.
  destruct (lookup_lt_is_Some_2 (lines fig2) idx) as [l2 H2].
  { rewrite Hl12. eapply lookup_lt_is_Some_1; eauto. }
  destruct (H12 idx l l2 H1 H2) as [Hc12 Hm12].
  destruct (H23 idx l2 l3 H2 H3) as [Hc23 Hm23].
  split.
  - destruct Hc23 as [-> | ->]; auto.
  - destruct Hm23 as [-> | ->]; auto.
Qed.

Lemma keeps_update_line idx (f : line3d -> line3d) :
  (forall l, (color (f l) = color l \/ color (f l) = runner_not_in_game_color sty)
             /\ (marker (f l) = marker l \/ marker (f l) = ""%string)) ->
  keeps (no_reset sty) (update_line idx f).
Proof.
  intros Hf fig r fig' [= <- <-]. split; simpl.
  - apply length_alter.
  - intros i l l' H H'. rewrite list_lookup_alter in H'.
    destruct (decide (idx = i)) as [-> | Hne].
    + rewrite H in H'. injection H' as <-. apply Hf.
    + rewrite H in H'. injection H' as <-. auto.
Qed.

Lemma keeps_set_text text : keeps (no_reset sty) (set_text text).
Proof.
  intros fig r fig' [= <- <-]. split; simpl; [reflexivity |].
  intros idx l l' H H'. rewrite H in H'. injection H' as <-. auto.
Qed.

Lemma animate_agent_no_reset i idx :
  keeps (no_reset sty) (animate_agent es env sty i idx).
Proof.
  unfold animate_agent.
  repeat first
    [ apply (keeps_bind _ no_reset_trans); [| intros ?]
    | apply (keeps_lift _ no_reset_refl)
    | apply (keeps_ret _ no_reset_refl)
    | apply keeps_update_line; intros l; simpl; auto
    | match goal with |- keeps _ (if ?b then _ else _) => destruct b end ].
Qed.

Lemma animate_no_reset i : keeps (no_reset sty) (animate es env sty i).
Proof.
  unfold animate.
  apply (keeps_bind _ no_reset_trans); [apply (keeps_gets _ no_reset_refl) | intros n].
  apply (keeps_bind _ no_reset_trans).
  { apply (keeps_for_each _ no_reset_refl no_reset_trans).
    intros idx. apply animate_agent_no_reset. }
  intros _.
  apply (keeps_bind _ no_reset_trans); [apply (keeps_lift _ no_reset_refl) | intros alive].
  apply (keeps_bind _ no_reset_trans); [apply (keeps_lift _ no_reset_refl) | intros text].
  apply keeps_set_text.
Qed.

(** *** Building the animation *)

Lemma well_shaped_positions n t : well_shaped es n t -> has_positions es n.
Proof.
  intros (ax & ay & fl & Hx & Hy & Hf & Hnx & Hny & _). exists ax, ay. auto.
Qed.

Lemma plot_agent_ok n idx :
  has_positions es n -> (idx < n)%nat ->
  plot_agent es env sty idx = Ok (initial_line es env sty idx).
Proof.
  intros (ax & ay & Hx & Hy & Hnx & Hny) Hidx.
  unfold plot_agent, initial_line, lookup_channel. rewrite Hx, Hy.
  rewrite !getslice_ok by lia. reflexivity.
Qed.

Lemma initial_label_ok :
  init_num_runners env <> 0 ->
  _get_label (PyInt 0) (PyInt (init_num_runners env)) (init_num_runners env)
  = Ok (mk_label (PyInt 0) (PyInt (init_num_runners env))
          (Quotient (init_num_runners env) (init_num_runners env))).
Proof.
  intros H. unfold _get_label, true_divide.
  destruct (Z.eqb_spec (init_num_runners env) 0); [contradiction | reflexivity].
Qed.

End Rendering.

Section Generate.

Context {C : Coord}.

Lemma generate_ok (wd : warp_drive_module) (sty : style) (es : episode_states) :
  let env := cuda_envs_env wd in
  fetch_episode_states wd ["loc_x"; "loc_y"; "still_in_the_game"]%string
    = Ok (PyDict es) ->
  has_positions es (Z.to_nat (num_agents env)) ->
  init_num_runners env <> 0 -> fps sty <> 0 ->
  generate_tag_env_rollout_animation (Some wd) sty
  = Ok (mk_animation
          (mk_figure (map (initial_line es env sty) (range (num_agents env)))
             (mk_label (PyInt 0) (PyInt (init_num_runners env))
                (Quotient (init_num_runners env) (init_num_runners env))))
          (animate es env sty) (range (episode_length env + 1)) (1000, fps sty)).
Proof.
  intros env Hfetch Hw Hinit Hfps.
  unfold generate_tag_env_rollout_animation, fetch_and_validate. rewrite Hfetch.
  fold env.
  rewrite (map_result_ok _ (initial_line es env sty)).
  - rewrite initial_label_ok by assumption.
    destruct (Z.eqb_spec (fps sty) 0); [contradiction | reflexivity].
  - intros idx Hidx. eapply plot_agent_ok; [exact Hw |].
    unfold range in Hidx. apply in_seq in Hidx. lia.
Qed.

End Generate.

(** *** Where a key lookup can fail *)

Section Failures.

Context {C : Coord}.
Variables (es : episode_states) (env : environment) (sty : style).

Lemma getslice_raises {A} (a : ndarray A) i j e :
  getslice a i j = Raise e -> e = IndexError.
Proof. unfold getslice. destruct (j <? ncols a)%nat; congruence. Qed.

Lemma getitem_raises {A} (a : ndarray A) i j e :
  getitem a i j = Raise e -> e = IndexError.
Proof.
  unfold getitem. destruct ((i <? nrows a)%nat && (j <? ncols a)%nat); congruence.
Qed.

Lemma getrow_raises {A} (a : ndarray A) i e :
  getrow a i = Raise e -> e = IndexError.
Proof. unfold getrow. destruct (i <? nrows a)%nat; congruence. Qed.

Lemma map_result_raise_inv {X Y} (f : X -> result Y) (l : list X) e :
  map_result f l = Raise e -> exists x, In x l /\ f x = Raise e.
Proof.
  induction l as [|x l IH]; simpl; [discriminate |].
  destruct (f x) as [y | e'] eqn:E.
  - destruct (map_result f l) as [ys | e'']; [discriminate |].
    intros [= ->]. destruct IH as (x' & Hin & Hx'); [reflexivity |].
    exists x'. auto.
  - intros [= ->]. exists x. auto.
Qed.

Lemma plot_agent_key_error idx e :
  plot_agent es env sty idx = Raise e -> from_missing_channel es e.
Proof.
  unfold plot_agent, lookup_channel, from_missing_channel, lacks.
  destruct (loc_x es) as [ax|] eqn:Hx; [| intros [= E] k Hk; subst; injection Hk as <-; auto].
  destruct (getslice ax 0 idx) eqn:Hsx;
    [| intros [= E] k Hk; subst; apply getslice_raises in Hsx; discriminate].
  destruct (loc_y es) as [ay|] eqn:Hy; [| intros [= E] k Hk; subst; injection Hk as <-; auto].
  destruct (getslice ay 0 idx) eqn:Hsy;
    [| intros [= E] k Hk; subst; apply getslice_raises in Hsy; discriminate].
  discriminate.
Qed.

Lemma animate_agent_key_error i idx :
  raises_only (from_missing_channel es) (animate_agent es env sty i idx).
Proof.
  unfold animate_agent, update_line.
  apply raises_only_bind; [| intros ax].
  { apply raises_only_lift. unfold lookup_channel.
    destruct (loc_x es) eqn:Hx; [discriminate |].
    intros e [= <-] k [= <-]. left. auto. }
  apply raises_only_bind; [| intros x].
  { apply raises_only_lift. intros e He k ->.
    apply getslice_raises in He. discriminate. }
  apply raises_only_bind; [| intros ay].
  { apply raises_only_lift. unfold lookup_channel.
    destruct (loc_y es) eqn:Hy; [discriminate |].
    intros e [= <-] k [= <-]. right; left. auto. }
  apply raises_only_bind; [| intros y].
  { apply raises_only_lift. intros e He k ->.
    apply getslice_raises in He. discriminate. }
  apply raises_only_bind; [apply raises_only_modify | intros _].
  apply raises_only_bind; [| intros flags].
  { apply raises_only_lift. unfold lookup_channel.
    destruct (still_in_the_game es) eqn:Hf; [discriminate |].
    intros e [= <-] k [= <-]. right; right. auto. }
  apply raises_only_bind; [| intros flag].
  { apply raises_only_lift. intros e He k ->.
    apply getitem_raises in He. discriminate. }
  destruct (negb (flag =? 0)).
  - apply raises_only_ret.
  - apply raises_only_bind; [apply raises_only_modify | intros _].
    apply raises_only_modify.
Qed.

Lemma animate_key_error i :
  raises_only (from_missing_channel es) (animate es env sty i).
Proof.
  unfold animate.
  apply raises_only_bind; [apply raises_only_gets | intros n].
  apply raises_only_bind.
  { apply raises_only_for_each. intros idx. apply animate_agent_key_error. }
  intros _.
  apply raises_only_bind; [| intros alive].
  { apply raises_only_lift. unfold runners_alive, lookup_channel.
    destruct (still_in_the_game es) as [fl|] eqn:Hf.
    - destruct (getrow fl i) as [row | e0] eqn:Hr; [discriminate |].
      intros e [= <-] k ->. apply getrow_raises in Hr. discriminate.
    - intros e [= <-] k [= <-]. right; right. auto. }
  apply raises_only_bind; [| intros text].
  { apply raises_only_lift. unfold _get_label, true_divide.
    destruct (init_num_runners env =? 0), (flags_kind es); discriminate. }
  apply raises_only_modify.
Qed.

(** With the flags missing, the first pass of the loop of [animate]
    moves marker 0 and then fails on the lookup of line 283. *)
Lemma animate_without_flags n i fig :
  has_positions es (S n) -> still_in_the_game es = None ->
  (0 < length (lines fig))%nat ->
  fst (animate es env sty i fig) = Raise (KeyError "still_in_the_game").
Proof.
  intros (ax & ay & Hx & Hy & Hnx & Hny) Hf Hlen.
  unfold animate. unfold bind at 1, gets.
  destruct (lines fig) as [|l ls] eqn:Hl; [simpl in Hlen; lia |].
  simpl length. simpl seq. simpl for_each.
  unfold bind at 1. unfold bind at 1.
  unfold animate_agent at 1. rewrite Hx, Hy, Hf.
  unfold bind, lift, lookup_channel, update_line, modify.
  rewrite !getslice_ok by lia. reflexivity.
Qed.

End Failures.

(** *** The claims about the renderer *)

Section Claims.

Context {C : Coord}.

(** C1, as amended.  On a snapshot whose flags are 0 or 1 (with a tagger
    count and a column count below [2 ^ 63]), the runners-left count
    that [animate] writes into the status label at frame [i] is the
    number of agents flagged active at timestep [i] minus
    [env.num_taggers] whenever at least that many agents are flagged
    active, and is then non-negative.  It is not clamped: with fewer
    active agents than taggers, a signed (or boolean) array of flags
    shows the negative difference, and an unsigned one the difference
    plus [2 ^ 64]. *)
Theorem runners_left_is_active_minus_taggers
    (es : episode_states) (env : environment) (sty : style) (fl : ndarray Z)
    (n t i : nat) (fig : figure) :
  well_shaped es n t -> still_in_the_game es = Some fl -> binary_flags fl ->
  (i < t)%nat -> (length (lines fig) <= n)%nat ->
  0 <= num_taggers env < 2 ^ 63 -> Z.of_nat (ncols fl) < 2 ^ 63 ->
  let row := map (item fl i) (seq 0 (ncols fl)) in
  exists fig',
    animate es env sty i fig = (Ok tt, fig')
    /\ (num_taggers env <= count_active row ->
        value (n_runners_alive (label fig')) = count_active row - num_taggers env
        /\ 0 <= value (n_runners_alive (label fig')))
    /\ (flags_kind es = Signed ->
        n_runners_alive (label fig') = NpInt64 (count_active row - num_taggers env)
        /\ (0 <= value (n_runners_alive (label fig'))
            <-> num_taggers env <= count_active row))
    /\ (flags_kind es = Unsigned -> count_active row < num_taggers env ->
        n_runners_alive (label fig')
        = NpUInt64 (2 ^ 64 + (count_active row - num_taggers env))).
Proof.
  intros Hw Hf Hbin Hi Hlen Htag Hcols row.
  rewrite (animate_ok es env sty n t i fig fl) by assumption.
  eexists. split; [reflexivity |]. simpl. fold row.
  assert (Hrow : forall v, In v row -> v = 0 \/ v = 1).
  { intros v Hv. apply in_map_iff in Hv as (j & <- & _). apply Hbin. }
  rewrite (shown_count _ row _ Hrow).
  pose proof (count_active_le_length row) as Hle.
  assert (Hge : 0 <= count_active row) by (unfold count_active; lia).
  unfold row in Hle at 2. rewrite length_map, length_seq in Hle.
  assert (H64 : 2 ^ 64 = 2 ^ 63 + 2 ^ 63) by reflexivity.
  split; [| split].
  - intros Hactive. destruct (flags_kind es); cbn [np_scalar value].
    + rewrite wrap64_signed by lia. lia.
    + rewrite wrap64_unsigned by lia. lia.
  - intros ->. cbn [np_scalar value]. rewrite wrap64_signed by lia.
    split; [reflexivity | lia].
  - intros -> Hfew. cbn [np_scalar value].
    rewrite wrap64_unsigned_negative by lia. reflexivity.
Qed.

(** C2.  With no runner at the start ([env.num_agents - env.num_taggers]
    is zero) the first label computation, line 268, divides two Python
    integers by zero: [_get_label] raises [ZeroDivisionError], and so
    does the renderer, as soon as the markers are plotted.  With at least
    one runner [_get_label] never raises. *)
Theorem zero_runners_label_raises :
  (forall t n, _get_label t (PyInt n) 0 = Raise ZeroDivisionError)
  /\ (forall (wd : warp_drive_module) (sty : style) (es : episode_states),
        let env := cuda_envs_env wd in
        fetch_episode_states wd ["loc_x"; "loc_y"; "still_in_the_game"]%string
          = Ok (PyDict es) ->
        init_num_runners env = 0 ->
        is_ok (map_result (plot_agent es env sty) (range (num_agents env))) = true ->
        generate_tag_env_rollout_animation (Some wd) sty = Raise ZeroDivisionError)
  /\ (forall (env : environment) t n,
        0 < init_num_runners env ->
        _get_label t n (init_num_runners env)
        = Ok (mk_label t n (Quotient (value n) (init_num_runners env)))).
Proof.
  split; [| split].
  - reflexivity.
  - intros wd sty es env Hfetch Hinit Hplot.
    unfold generate_tag_env_rollout_animation, fetch_and_validate.
    rewrite Hfetch. fold env.
    destruct (map_result _ _) as [lines0 | e]; [| discriminate].
    rewrite Hinit. reflexivity.
  - intros env t n Hpos. unfold _get_label, true_divide.
    destruct (Z.eqb_spec (init_num_runners env) 0); [lia | reflexivity].
Qed.

(** C3.  For an environment of episode length [T] the renderer hands the
    animation exactly [T + 1] frames, frame [k] being timestep [k] for
    every [k] from 0 to [T]; on a snapshot with a row of flags for each
    of them, every frame is drawn. *)
Theorem one_frame_per_timestep
    (wd : warp_drive_module) (sty : style) (es : episode_states) (t : nat) :
  let env := cuda_envs_env wd in
  fetch_episode_states wd ["loc_x"; "loc_y"; "still_in_the_game"]%string
    = Ok (PyDict es) ->
  well_shaped es (Z.to_nat (num_agents env)) t ->
  init_num_runners env <> 0 -> fps sty <> 0 ->
  0 <= episode_length env ->
  exists ani,
    generate_tag_env_rollout_animation (Some wd) sty = Ok ani
    /\ Z.of_nat (length (ani_frames ani)) = episode_length env + 1
    /\ (forall k, (k < length (ani_frames ani))%nat -> ani_frames ani !! k = Some k)
    /\ ((Z.to_nat (episode_length env) < t)%nat ->
        exists fig, play ani (ani_frames ani) = (Ok tt, fig)).
Proof.
  intros env Hfetch Hw Hinit Hfps HT.
  rewrite (generate_ok wd sty es) by eauto using well_shaped_positions. fold env.
  eexists. split; [reflexivity |]. simpl. unfold range.
  split; [| split].
  - rewrite length_seq. lia.
  - intros k Hk. rewrite length_seq in Hk. now apply lookup_seq_lt.
  - intros Ht.
    destruct Hw as (ax & ay & fl & Hx & Hy & Hf & Hrest).
    destruct (render_frames es env sty (Z.to_nat (num_agents env)) t fl
                (mk_figure (map (initial_line es env sty)
                              (seq 0 (Z.to_nat (num_agents env))))
                   (mk_label (PyInt 0) (PyInt (init_num_runners env))
                      (Quotient (init_num_runners env) (init_num_runners env)))))
      with (j := Z.to_nat (episode_length env + 1)) as (fig & Hrun & _).
    + exists ax, ay, fl. auto.
    + exact Hf.
    + simpl. rewrite length_map, length_seq. lia.
    + lia.
    + exists fig. exact Hrun.
Qed.

Lemma initial_lines_lookup (es : episode_states) (env : environment) (sty : style)
    (n idx : nat) :
  (idx < n)%nat ->
  map (initial_line es env sty) (seq 0 n) !! idx = Some (initial_line es env sty idx).
Proof.
  intros H. change (map (initial_line es env sty) (seq 0 n))
    with (initial_line es env sty <$> seq 0 n).
  rewrite list_lookup_fmap, lookup_seq_lt by assumption. reflexivity.
Qed.

(** C4.  Take an agent whose flag is first false at frame [i].  When the
    frames are drawn in order from frame 0, the agent's marker has the
    inactive color and no glyph after every frame [j >= i], and its role
    color (the tagger color if it is in [env.taggers], the runner color
    otherwise) and its glyph after every frame [j < i].  No call of
    [animate], whatever the frame and the figure, gives a marker back a
    color other than the inactive one or a glyph. *)
Theorem inactive_marker_persists
    (wd : warp_drive_module) (sty : style) (es : episode_states)
    (fl : ndarray Z) (t idx i : nat) :
  let env := cuda_envs_env wd in
  fetch_episode_states wd ["loc_x"; "loc_y"; "still_in_the_game"]%string
    = Ok (PyDict es) ->
  well_shaped es (Z.to_nat (num_agents env)) t ->
  still_in_the_game es = Some fl ->
  init_num_runners env <> 0 -> fps sty <> 0 ->
  (idx < Z.to_nat (num_agents env))%nat -> (i < t)%nat ->
  (forall k, (k < i)%nat -> item fl k idx <> 0) -> item fl i idx = 0 ->
  exists ani,
    generate_tag_env_rollout_animation (Some wd) sty = Ok ani
    /\ (forall j, (j < t)%nat ->
        exists fig l,
          play ani (seq 0 (S j)) = (Ok tt, fig)
          /\ lines fig !! idx = Some l
          /\ ((i <= j)%nat ->
              color l = runner_not_in_game_color sty /\ marker l = ""%string)
          /\ ((j < i)%nat ->
              color l = role_color sty env idx /\ marker l = "o"%string))
    /\ (forall j, keeps (no_reset sty) (ani_func ani j)).
Proof.
  intros env Hfetch Hw Hf Hinit Hfps Hidx Hi Hbefore Hat.
  rewrite (generate_ok wd sty es) by eauto using well_shaped_positions. fold env.
  eexists. split; [reflexivity |]. split.
  - intros j Hj. unfold play. simpl ani_func. simpl ani_fig. unfold range.
    match goal with |- context [for_each _ _ ?f0] => set (fig0 := f0) end.
    destruct (render_frames es env sty (Z.to_nat (num_agents env)) t fl fig0 Hw Hf)
      with (j := S j) as (fig & Hrun & Hlen & Hlines).
    { subst fig0. simpl. rewrite length_map, length_seq. lia. }
    { lia. }
    destruct (Hlines idx (initial_line es env sty idx)) as (l & Hl & Hc & Hm).
    { subst fig0. simpl. now apply initial_lines_lookup. }
    exists fig, l. split; [exact Hrun |]. split; [exact Hl |]. split.
    + intros Hij. rewrite (seen_inactive_true fl i (S j) idx) in Hc, Hm by (assumption || lia).
      auto.
    + intros Hji. rewrite (seen_inactive_false fl (S j) idx) in Hc, Hm
        by (intros k Hk; apply Hbefore; lia).
      auto.
  - intros j. simpl. apply animate_no_reset.
Qed.

(** C7.  A snapshot that lacks a channel passes the checks of lines
    186-188 like any other dictionary.  With at least one agent to plot:
    without [loc_x] the renderer raises [KeyError] at its first read of
    the positions (line 237 or 246); without [loc_y], at the read that
    follows; without [still_in_the_game] the animation is built and the
    first call of [animate] raises [KeyError] at line 283.  Neither the
    renderer nor [animate] raises a [KeyError] for a channel that the
    snapshot has. *)
Theorem missing_channel_fails_at_access
    (wd : warp_drive_module) (sty : style) (es : episode_states) :
  let env := cuda_envs_env wd in
  fetch_episode_states wd ["loc_x"; "loc_y"; "still_in_the_game"]%string
    = Ok (PyDict es) ->
  0 < num_agents env ->
  fetch_and_validate (Some wd) = Ok (es, env)
  /\ (loc_x es = None ->
      generate_tag_env_rollout_animation (Some wd) sty = Raise (KeyError "loc_x"))
  /\ (forall ax, loc_x es = Some ax -> (0 < ncols ax)%nat -> loc_y es = None ->
      generate_tag_env_rollout_animation (Some wd) sty = Raise (KeyError "loc_y"))
  /\ (has_positions es (Z.to_nat (num_agents env)) ->
      still_in_the_game es = None ->
      init_num_runners env <> 0 -> fps sty <> 0 ->
      exists ani,
        generate_tag_env_rollout_animation (Some wd) sty = Ok ani
        /\ forall i, fst (ani_func ani i (ani_fig ani))
                     = Raise (KeyError "still_in_the_game"))
  /\ (forall e, generate_tag_env_rollout_animation (Some wd) sty = Raise e ->
      from_missing_channel es e)
  /\ (forall i, raises_only (from_missing_channel es) (animate es env sty i)).
Proof.
  intros env Hfetch Hn.
  assert (Hrange : range (num_agents env) = 0%nat :: seq 1 (Z.to_nat (num_agents env) - 1)).
  { unfold range. destruct (Z.to_nat (num_agents env)) as [|m] eqn:E; [lia |].
    simpl. now rewrite Nat.sub_0_r. }
  assert (Hval : fetch_and_validate (Some wd) = Ok (es, env)).
  { unfold fetch_and_validate. now rewrite Hfetch. }
  split; [exact Hval |].
  unfold generate_tag_env_rollout_animation. rewrite Hval.
  split; [| split; [| split; [| split]]].
  - intros Hx. rewrite Hrange.
    rewrite (map_result_raise _ _ _ (KeyError "loc_x")); [reflexivity |].
    unfold plot_agent. now rewrite Hx.
  - intros ax Hx Hcols Hy. rewrite Hrange.
    rewrite (map_result_raise _ _ _ (KeyError "loc_y")); [reflexivity |].
    unfold plot_agent. rewrite Hx, Hy. simpl.
    now rewrite getslice_ok by assumption.
  - intros Hpos Hf Hinit Hfps.
    pose proof (generate_ok wd sty es Hfetch Hpos Hinit Hfps) as Hgen.
    unfold generate_tag_env_rollout_animation in Hgen. rewrite Hval in Hgen.
    fold env in Hgen. rewrite Hgen.
    eexists. split; [reflexivity |]. intros i. simpl.
    apply (animate_without_flags es env sty (Z.to_nat (num_agents env) - 1)).
    + replace (S (Z.to_nat (num_agents env) - 1)) with (Z.to_nat (num_agents env)) by lia.
      exact Hpos.
    + exact Hf.
    + simpl. rewrite length_map. unfold range. rewrite length_seq. lia.
  - intros e.
    destruct (map_result _ _) as [lines0 | e0] eqn:Hplot.
    + unfold _get_label, true_divide.
      destruct (init_num_runners env =? 0);
        [intros [= <-] k; discriminate |].
      destruct (fps sty =? 0); [intros [= <-] k; discriminate | discriminate].
    + intros [= <-]. apply map_result_raise_inv in Hplot as (idx & _ & Hidx).
      eapply plot_agent_key_error, Hidx.
  - intros i. apply animate_key_error.
Qed.

End Claims.

(** *** The claims on concrete snapshots *)

Import Samples.

(** C1 as stated fails: on a snapshot in which every agent is flagged out
    at timestep 1, frame 1 shows a runners-left count of -1. *)
Lemma runners_left_can_be_negative :
  exists ani fig,
    generate_tag_env_rollout_animation (Some all_out_module) default_style = Ok ani
    /\ play ani [0; 1]%nat = (Ok tt, fig)
    /\ n_runners_alive (label fig) = NpInt64 (-1).
Proof.
  eexists. eexists. split; [reflexivity |]. split; reflexivity.
Qed.

(** The same snapshot with unsigned flags: the difference [0 - 1] is
    taken in [uint64], and frame 1 shows [2 ^ 64 - 1]. *)
Example unsigned_flags_wrap_around :
  exists ani fig,
    generate_tag_env_rollout_animation (Some unsigned_all_out_module) default_style
    = Ok ani
    /\ play ani [0; 1]%nat = (Ok tt, fig)
    /\ n_runners_alive (label fig) = NpUInt64 18446744073709551615.
Proof.
  eexists. eexists. split; [reflexivity |]. split; reflexivity.
Qed.

(** A sum that leaves [int64] comes back at the other end of its range. *)
Example signed_sum_wraps_around :
  sum Signed [2 ^ 62; 2 ^ 62; 1] = - 2 ^ 63 + 1
  /\ sum Unsigned [2 ^ 63; 2 ^ 63; 1] = 1.
Proof. split; reflexivity. Qed.

Lemma small_states_well_shaped : well_shaped small_states 3 3.
Proof.
  exists positions, positions, flags. simpl. repeat split; lia.
Qed.

Lemma flags_binary : binary_flags flags.
Proof.
  intros i j. unfold flags, of_rows. simpl.
  do 3 (destruct i as [|i];
        [do 3 (destruct j as [|j]; [auto |]); destruct j; auto |]).
  destruct i, j; auto.
Qed.

(** C1 on the small snapshot, on the figure the renderer builds for
    it: at frame 1 two agents are active, one of them the tagger. *)
Lemma runners_left_witness :
  exists fig',
    animate small_states small_env default_style 1 small_figure = (Ok tt, fig')
    /\ n_runners_alive (label fig') = NpInt64 1.
Proof.
  destruct (runners_left_is_active_minus_taggers small_states small_env
              default_style flags 3 3 1 small_figure
              small_states_well_shaped eq_refl flags_binary)
    as (fig' & Hrun & _ & Hsigned & _).
  - lia.
  - simpl. lia.
  - vm_compute. split; [discriminate | reflexivity].
  - vm_compute. reflexivity.
  - exists fig'. split; [exact Hrun | apply Hsigned; reflexivity].
Defined.

(** C2 on the environment whose only agent is a tagger. *)
Lemma zero_runners_witness :
  generate_tag_env_rollout_animation (Some no_runner_module) default_style
  = Raise ZeroDivisionError.
Proof.
  apply (proj1 (proj2 zero_runners_label_raises) no_runner_module default_style
           small_states); reflexivity.
Defined.

(** C3 on the small snapshot: episode length 2, three frames. *)
Lemma one_frame_per_timestep_witness :
  exists ani,
    generate_tag_env_rollout_animation (Some small_module) default_style = Ok ani
    /\ ani_frames ani = [0; 1; 2]%nat
    /\ is_ok (fst (play ani (ani_frames ani))) = true.
Proof.
  destruct (one_frame_per_timestep small_module default_style small_states 3)
    as (ani & Hgen & Hlen & Hnth & Hplay).
  - reflexivity.
  - exact small_states_well_shaped.
  - vm_compute. lia.
  - vm_compute. lia.
  - vm_compute. discriminate.
  - exists ani. split; [exact Hgen |].
    simpl in Hlen.
    assert (Hfr : ani_frames ani = [0; 1; 2]%nat).
    { apply list_eq. intros k.
      destruct (Nat.lt_ge_cases k 3) as [Hk | Hk].
      - rewrite Hnth by lia.
        destruct k as [|[|[|k]]]; [reflexivity | reflexivity | reflexivity | lia].
      - rewrite !lookup_ge_None_2; [reflexivity | simpl; lia | lia]. }
    split; [exact Hfr |].
    destruct Hplay as (fig & ->); [simpl; lia | reflexivity].
Defined.

(** C4 on the small snapshot: agent 1 is first flagged out at frame 1. *)
Lemma inactive_marker_witness :
  exists ani fig l,
    generate_tag_env_rollout_animation (Some small_module) default_style = Ok ani
    /\ play ani [0; 1; 2]%nat = (Ok tt, fig)
    /\ lines fig !! 1%nat = Some l
    /\ color l = "#666666"%string /\ marker l = ""%string.
Proof.
  destruct (inactive_marker_persists small_module default_style small_states
              flags 3 1 1)
    as (ani & Hgen & Hframes & _).
  - reflexivity.
  - exact small_states_well_shaped.
  - reflexivity.
  - vm_compute. lia.
  - vm_compute. lia.
  - vm_compute. lia.
  - lia.
  - intros k Hk. assert (k = 0%nat) as -> by lia. simpl. lia.
  - reflexivity.
  - destruct (Hframes 2%nat) as (fig & l & Hrun & Hl & Hin & _); [lia |].
    exists ani, fig, l. split; [exact Hgen |]. split; [exact Hrun |].
    split; [exact Hl |]. apply Hin. lia.
Defined.

(** C7 on the snapshot without [loc_x]. *)
Lemma missing_channel_witness :
  fetch_and_validate (Some module_without_x) = Ok (states_without_x, small_env)
  /\ generate_tag_env_rollout_animation (Some module_without_x) default_style
    = Raise (KeyError "loc_x").
Proof.
  destruct (missing_channel_fails_at_access module_without_x default_style
              states_without_x)
    as (Hval & Hx & _).
  - reflexivity.
  - vm_compute. reflexivity.
  - split; [exact Hval | apply Hx; reflexivity].
Defined.

(** The same without the flags: the animation is built, and its first
    frame fails. *)
Example missing_flags_fail_in_first_frame :
  exists ani,
    generate_tag_env_rollout_animation (Some module_without_flags) default_style
    = Ok ani
    /\ fst (play ani (ani_frames ani)) = Raise (KeyError "still_in_the_game").
Proof. eexists. split; reflexivity. Qed.

End RendererFacts.

(** ** The driver *)

Module DriverFacts.

Import PyFacts TrueDivide Config Driver.

Section Steps.

Variable w : world.

(** *** What each kind of statement does to the trace *)

Lemma call_trace c st :
  trace (snd (call w c st)) = trace st ++ [c].
Proof. unfold call. destruct (outcome w c); reflexivity. Qed.

Lemma call_returns c st a st' :
  call w c st = (Ok a, st') -> outcome w c = None /\ trace st' = trace st ++ [c].
Proof.
  unfold call. destruct (outcome w c); [discriminate |].
  intros [= _ <-]. auto.
Qed.

Lemma silent_py_assert b : silent (py_assert b).
Proof. intros st r st'. unfold py_assert. destruct b; intros [= _ <-]; reflexivity. Qed.

Lemma silent_assign : silent assign_run_config.
Proof. intros st r st' [= _ <-]. reflexivity. Qed.

Lemma silent_read ks : silent (read_config ks).
Proof.
  intros st r st'. unfold read_config.
  destruct (config_object st); intros [= _ <-]; reflexivity.
Qed.

Lemma silent_lift {A} (x : result A) : silent (lift x).
Proof. intros st r st' [= _ <-]. reflexivity. Qed.

(** *** [graceful_close] is the last call *)

Lemma closing_call P cs c (k : M state unit) :
  c <> GracefulClose -> closing P cs k ->
  closing (fun r => outcome w c = None /\ P r) (c :: cs) (call w c >> k).
Proof.
  intros Hc Hk st r st' Hrun Hnot Hin. unfold bind in Hrun.
  destruct (call w c st) as [[[]|e] st1] eqn:E.
  - apply call_returns in E as [Hout Htr].
    destruct (Hk st1 r st' Hrun) as [Htr' HP].
    + rewrite Htr. intros Hin1. apply in_app_or in Hin1 as [? | [? | []]]; auto.
    + exact Hin.
    + rewrite Htr', Htr, <- app_assoc. auto.
  - injection Hrun as <- <-. exfalso.
    pose proof (call_trace c st) as Htr. rewrite E in Htr. simpl in Htr.
    rewrite Htr in Hin. apply in_app_or in Hin as [? | [? | []]]; auto.
Qed.

Lemma closing_silent {A} P cs (m : M state A) (k : A -> M state unit) :
  silent m -> (forall a, closing P cs (k a)) -> closing P cs (bind m k).
Proof.
  intros Hm Hk st r st' Hrun Hnot Hin. unfold bind in Hrun.
  destruct (m st) as [[a|e] st1] eqn:E; pose proof (Hm _ _ _ E) as Htr.
  - destruct (Hk a st1 r st' Hrun) as [Htr' HP]; try congruence.
    split; [congruence | exact HP].
  - injection Hrun as <- <-. exfalso. apply Hnot. now rewrite <- Htr.
Qed.

Lemma closing_assert P cs b (k : M state unit) :
  closing P cs k -> closing (fun r => b = true /\ P r) cs (py_assert b >> k).
Proof.
  intros Hk st r st' Hrun Hnot Hin. unfold bind, py_assert in Hrun.
  destruct b; simpl in Hrun.
  - destruct (Hk st r st' Hrun Hnot Hin). auto.
  - injection Hrun as <- <-. contradiction.
Qed.

Lemma closing_last :
  closing (fun r => r = result_of w GracefulClose) [GracefulClose]
    (call w GracefulClose).
Proof.
  intros st r st' Hrun _ _.
  pose proof (call_trace GracefulClose st) as Htr. rewrite Hrun in Htr.
  split; [exact Htr |].
  unfold call, result_of in *. destruct (outcome w GracefulClose); congruence.
Qed.

Lemma closing_weaken (P Q : result unit -> Prop) cs m :
  closing P cs m -> (forall r, P r -> Q r) -> closing Q cs m.
Proof.
  intros Hm HPQ st r st' Hrun Hnot Hin.
  destruct (Hm st r st' Hrun Hnot Hin). auto.
Qed.

Lemma reaches_close_bind {A B} (m : M state A) (k : A -> M state B) :
  (forall a, reaches_close (k a)) -> reaches_close (bind m k).
Proof.
  intros Hk st b st'. unfold bind.
  destruct (m st) as [[a|e] st1]; [apply Hk | discriminate].
Qed.

Lemma reaches_close_last : reaches_close (call w GracefulClose).
Proof.
  intros st a st' Hrun. apply call_returns in Hrun as [_ ->].
  apply in_or_app. right. now left.
Qed.

(** *** Nothing already called is forgotten *)

Lemma remembers_refl st : remembers st st.
Proof. intros c H. exact H. Qed.

Lemma remembers_trans st1 st2 st3 :
  remembers st1 st2 -> remembers st2 st3 -> remembers st1 st3.
Proof. intros H12 H23 c H. auto. Qed.

Lemma keeps_remembers_call c : keeps remembers (call w c).
Proof.
  intros st r st' Hrun c' Hin.
  pose proof (call_trace c st) as Htr. rewrite Hrun in Htr. simpl in Htr.
  rewrite Htr. apply in_or_app. now left.
Qed.

Lemma keeps_remembers_silent {A} (m : M state A) : silent m -> keeps remembers m.
Proof. intros Hm st r st' Hrun c Hin. now rewrite (Hm _ _ _ Hrun). Qed.

(** *** The configuration object *)

Lemma read_config_pure ks st : snd (read_config ks st) = st.
Proof. unfold read_config. destruct (config_object st); reflexivity. Qed.

Lemma keeps_pristine_silent {A} (m : M state A) :
  keeps (fun st st' => config_object st' = config_object st) m ->
  keeps (fun st st' => pristine st -> pristine st') m.
Proof. intros Hm st r st' Hrun. unfold pristine. now rewrite (Hm _ _ _ Hrun). Qed.

Lemma config_py_assert b :
  keeps (fun st st' => config_object st' = config_object st) (py_assert b).
Proof. intros st r st'. unfold py_assert. destruct b; intros [= _ <-]; reflexivity. Qed.

Lemma config_read ks :
  keeps (fun st st' => config_object st' = config_object st) (read_config ks).
Proof.
  intros st r st' Hrun. pose proof (read_config_pure ks st) as H.
  rewrite Hrun in H. simpl in H. now subst.
Qed.

Lemma config_lift {A} (x : result A) :
  keeps (fun st st' => config_object st' = config_object st) (lift (S:=state) x).
Proof. intros st r st' [= _ <-]. reflexivity. Qed.

Lemma config_call c :
  read_only_collaborators w ->
  keeps (fun st st' => config_object st' = config_object st) (call w c).
Proof.
  intros Hro st r st' Hrun. unfold call in Hrun.
  assert (Hsame : (if reaches_config c
                   then option_map (effect w c) (config_object st)
                   else config_object st) = config_object st).
  { destruct (reaches_config c) eqn:Hr; [| reflexivity].
    destruct (config_object st); simpl; [| reflexivity].
    now rewrite Hro. }
  rewrite Hsame in Hrun.
  destruct (outcome w c); injection Hrun as _ <-; reflexivity.
Qed.

Lemma pristine_assign :
  keeps (fun st st' => pristine st -> pristine st') assign_run_config.
Proof. intros st r st' [= _ <-] _. right. reflexivity. Qed.

Lemma pristine_refl st : pristine st -> pristine st.
Proof. auto. Qed.

Lemma pristine_trans st1 st2 st3 :
  (pristine st1 -> pristine st2) -> (pristine st2 -> pristine st3) ->
  pristine st1 -> pristine st3.
Proof. auto. Qed.

Lemma keeps_config_refl st : keeps_config st st.
Proof. intros H. exact H. Qed.

Lemma keeps_config_trans st1 st2 st3 :
  keeps_config st1 st2 -> keeps_config st2 st3 -> keeps_config st1 st3.
Proof. unfold keeps_config. auto. Qed.

Lemma keeps_config_of_same {A} (m : M state A) :
  keeps (fun st st' => config_object st' = config_object st) m ->
  keeps keeps_config m.
Proof. intros Hm st r st' Hrun H. now rewrite (Hm _ _ _ Hrun). Qed.

Lemma settled_bind {A B} (m : M state A) (k : A -> M state B) :
  (forall a, settled (k a)) -> settled (bind m k).
Proof.
  intros Hk st b st'. unfold bind.
  destruct (m st) as [[a|e] st1]; [apply Hk | discriminate].
Qed.

Lemma settled_assign {B} (k : M state B) :
  keeps keeps_config k -> settled (assign_run_config >> k).
Proof.
  intros Hk st b st' Hrun. unfold bind, assign_run_config, modify in Hrun.
  eapply Hk; [exact Hrun | reflexivity].
Qed.

(** *** The script as a whole *)

(** One rule per kind of statement, chosen by the statement's head. *)
Ltac closing_steps :=
  repeat lazymatch goal with
  | |- closing _ _ (bind (call _ _) _) => eapply closing_call; [discriminate |]
  | |- closing _ _ (bind (py_assert _) _) => eapply closing_assert
  | |- closing _ _ (bind assign_run_config _) =>
      eapply closing_silent; [apply silent_assign | intros ?]
  | |- closing _ _ (bind (read_config _) _) =>
      eapply closing_silent; [apply silent_read | intros ?]
  | |- closing _ _ (bind (lift _) _) =>
      eapply closing_silent; [apply silent_lift | intros ?]
  | |- closing _ _ (call _ GracefulClose) => apply closing_last
  end.

Ltac keeps_steps refl trans prim :=
  repeat lazymatch goal with
  | |- keeps _ (bind _ _) => apply (keeps_bind _ trans); [| intros ?]
  | |- keeps _ (ret _) => apply (keeps_ret _ refl)
  | |- keeps _ _ => prim
  end.

Lemma script_closing :
  closing (fun r => all_returned w /\ r = result_of w GracefulClose)
    full_trace (script w).
Proof.
  eapply closing_weaken.
  - unfold script, gpu_check. closing_steps.
  - cbv beta. intros r H.
    repeat match goal with H : _ /\ _ |- _ => destruct H end.
    split; [split |].
    + now apply Nat.ltb_lt.
    + intros c Hc. destruct c; (assumption || contradiction).
    + assumption.
Qed.

Lemma script_reaches_close : reaches_close (script w).
Proof.
  unfold script.
  repeat (apply reaches_close_bind; intros ?).
  apply reaches_close_last.
Qed.

Ltac config_step Hro :=
  lazymatch goal with
  | |- keeps _ (call _ _) => apply (config_call _ Hro)
  | |- keeps _ (py_assert _) => apply config_py_assert
  | |- keeps _ (read_config _) => apply config_read
  | |- keeps _ (lift _) => apply config_lift
  end.

Lemma script_pristine :
  read_only_collaborators w ->
  keeps (fun st st' => pristine st -> pristine st') (script w).
Proof.
  intros Hro. unfold script, gpu_check.
  keeps_steps pristine_refl pristine_trans
    ltac:(idtac;
          lazymatch goal with
          | |- keeps _ assign_run_config => apply pristine_assign
          | |- _ => apply keeps_pristine_silent; config_step Hro
          end).
Qed.

Lemma script_settled : read_only_collaborators w -> settled (script w).
Proof.
  intros Hro. unfold script, gpu_check.
  do 4 (apply settled_bind; intros ?).
  apply settled_assign.
  keeps_steps keeps_config_refl keeps_config_trans
    ltac:(apply keeps_config_of_same; config_step Hro).
Qed.

Lemma call_ok c st :
  outcome w c = None -> reaches_config c = false ->
  call w c st = (Ok tt, mk_state (config_object st) (trace st ++ [c])).
Proof. intros Ho Hr. unfold call. now rewrite Ho, Hr. Qed.

Lemma called_is_remembered c (k : M state unit) st :
  keeps remembers k -> In c (trace (snd ((call w c >> k) st))).
Proof.
  intros Hk. unfold bind.
  pose proof (call_trace c st) as Htr.
  destruct (call w c st) as [[[]|e] st1]; simpl in Htr.
  - destruct (k st1) as [r st'] eqn:Ek. simpl.
    apply (Hk _ _ _ Ek). rewrite Htr. apply in_or_app. right. now left.
  - simpl. rewrite Htr. apply in_or_app. right. now left.
Qed.

Lemma script_goes_on :
  outcome w Imports = None -> outcome w DeviceCount = None -> (0 < gpus w)%nat ->
  In SetLevel (trace (snd (run w))).
Proof.
  intros Hi Hd Hg. unfold run, script.
  rewrite (bind_ok _ _ _ _ _ (call_ok Imports _ Hi eq_refl)).
  rewrite (bind_ok _ _ _ _ _ (call_ok DeviceCount _ Hd eq_refl)).
  unfold gpu_check, py_assert.
  destruct (Nat.ltb_spec 0 (gpus w)) as [_ | ?]; [| lia].
  cbv iota. rewrite (bind_ok (ret tt) _ _ tt _ eq_refl).
  apply called_is_remembered.
  keeps_steps remembers_refl remembers_trans
    ltac:(idtac;
          lazymatch goal with
          | |- keeps _ (call _ _) => apply keeps_remembers_call
          | |- keeps _ assign_run_config => apply keeps_remembers_silent, silent_assign
          | |- keeps _ (read_config _) => apply keeps_remembers_silent, silent_read
          | |- keeps _ (lift _) => apply keeps_remembers_silent, silent_lift
          end).
Qed.

Lemma script_halts_without_gpu :
  outcome w Imports = None -> outcome w DeviceCount = None -> gpus w = 0%nat ->
  run w = (Raise AssertionError, mk_state None [Imports; DeviceCount]).
Proof.
  intros Hi Hd Hg. unfold run, script.
  rewrite (bind_ok _ _ _ _ _ (call_ok Imports _ Hi eq_refl)).
  rewrite (bind_ok _ _ _ _ _ (call_ok DeviceCount _ Hd eq_refl)).
  rewrite Hg. reflexivity.
Qed.

End Steps.

Lemma ext_call_eqb_eq a b : ext_call_eqb a b = true <-> a = b.
Proof. destruct a, b; simpl; split; (reflexivity || discriminate). Qed.

Lemma times_called_absent c tr : ~ In c tr -> times_called c tr = 0%nat.
Proof.
  unfold times_called. induction tr as [|x tr IH]; intros H; simpl.
  - reflexivity.
  - destruct (ext_call_eqb c x) eqn:E.
    + apply ext_call_eqb_eq in E. subst. exfalso. apply H. now left.
    + apply IH. intros Hin. apply H. now right.
Qed.

(** *** The configuration at the end of a run *)

Section Account.

Variable w : world.

Lemma step_any_call c (k : unit -> M state unit) st :
  bind (call w c) k st
  = match outcome w c with
    | None =>
        k tt (mk_state (if reaches_config c
                        then option_map (effect w c) (config_object st)
                        else config_object st) (trace st ++ [c]))
    | Some e =>
        (Raise e, mk_state (if reaches_config c
                            then option_map (effect w c) (config_object st)
                            else config_object st) (trace st ++ [c]))
    end.
Proof. unfold bind, call. destruct (outcome w c); reflexivity. Qed.

Lemma step_any_read ks (k : pyval -> M state unit) cfg tr :
  bind (read_config ks) k (mk_state (Some cfg) tr)
  = match subscripts cfg ks with
    | Ok v => k v (mk_state (Some cfg) tr)
    | Raise e => (Raise e, mk_state (Some cfg) tr)
    end.
Proof. reflexivity. Qed.

Lemma step_any_lift {A} (x : result A) (k : A -> M state unit) st :
  bind (lift x) k st
  = match x with
    | Ok a => k a st
    | Raise e => (Raise e, st)
    end.
Proof. reflexivity. Qed.

(** The end of a run that stopped: before the assignment of line 54 there
    is no configuration, after it the configuration is what the calls
    made of the literal. *)
Ltac stopped :=
  cbn [fst snd config_object trace];
  first [ left; split; [reflexivity | discriminate]
        | right; reflexivity ].

Ltac any_call c :=
  rewrite (step_any_call c);
  cbn [reaches_config config_object trace option_map];
  destruct (outcome w c); [stopped |].

Ltac any_read :=
  rewrite step_any_read;
  lazymatch goal with
  | |- context [subscripts ?cfg ?ks] => destruct (subscripts cfg ks); [| stopped]
  end.

Lemma run_accounted :
  (config_object (snd (run w)) = None /\ fst (run w) <> Ok tt)
  \/ config_object (snd (run w))
     = Some (written_by w (trace (snd (run w))) run_config).
Proof.
  unfold run, script.
  any_call Imports.
  any_call DeviceCount.
  unfold gpu_check, py_assert.
  destruct (0 <? gpus w)%nat; [| stopped].
  change (bind (ret tt) ?k ?st) with (k tt st). cbv beta.
  any_call SetLevel.
  change (bind assign_run_config ?k ?st)
    with (k tt (mk_state (Some run_config) (trace st))).
  cbv beta. cbn [trace].
  any_read.
  any_call MkTagContinuous.
  any_read.
  any_call MkEnvWrapper.
  any_call GetTaggers.
  any_call GetRunners.
  any_call MkWarpDriveModule.
  any_read.
  any_call MkCudaCallback.
  any_call GetTrainingBatchSize.
  any_call GetNumIters.
  any_call MkPerfStatsCallback.
  any_read. any_read. any_read.
  rewrite step_any_lift.
  destruct (compute_num_epochs w _ _ _); [| stopped].
  any_call MkTrainer.
  any_call Fit.
  unfold call. cbn [reaches_config config_object trace option_map].
  destruct (outcome w GracefulClose); stopped.
Qed.

End Account.

(** *** The claims about the driver *)

(** C5.  The assertion of line 36 fails exactly when
    [torch.cuda.device_count()] is zero, and leaves the store as it was
    when it passes.  In the script: without a GPU the run ends in
    [AssertionError] right after the device count, with no further call;
    with one, the script goes on to its next statement. *)
Theorem gpu_check_fails_iff_no_gpu :
  (forall n st, fst (gpu_check n st) = Raise AssertionError <-> n = 0%nat)
  /\ (forall n st, (0 < n)%nat -> gpu_check n st = (Ok tt, st))
  /\ (forall w, outcome w Imports = None -> outcome w DeviceCount = None ->
      gpus w = 0%nat ->
      run w = (Raise AssertionError, mk_state None [Imports; DeviceCount]))
  /\ (forall w, outcome w Imports = None -> outcome w DeviceCount = None ->
      (0 < gpus w)%nat -> In SetLevel (trace (snd (run w)))).
Proof.
  split; [| split; [| split]].
  - intros n st. unfold gpu_check, py_assert. destruct n; simpl.
    + split; reflexivity.
    + split; [discriminate | lia].
  - intros n st Hn. unfold gpu_check, py_assert.
    destruct (Nat.ltb_spec 0 n); [reflexivity | lia].
  - apply script_halts_without_gpu.
  - apply script_goes_on.
Qed.

(** C6.  In every run of the script [graceful_close] is called at most
    once.  When it is called, the calls of the run are those of the whole
    script, of which it is the last, right after [trainer.fit]; there was
    a GPU, every earlier call returned normally, and the run ends as
    [graceful_close] does.  A run that returns normally has called it.
    Without a GPU, or when an earlier call raises, it is not called; and
    a run that ends in an exception that is not [graceful_close]'s own
    has not called it. *)
Theorem graceful_close_only_after_fit (w : world) :
  let r := fst (run w) in
  let tr := trace (snd (run w)) in
  (times_called GracefulClose tr <= 1)%nat
  /\ (exists before, full_trace = before ++ [Fit; GracefulClose]
                     /\ ~ In GracefulClose before)
  /\ (r = Ok tt -> tr = full_trace)
  /\ (In GracefulClose tr ->
      tr = full_trace /\ all_returned w /\ r = result_of w GracefulClose)
  /\ (gpus w = 0%nat \/ (exists c, c <> GracefulClose /\ outcome w c <> None) ->
      ~ In GracefulClose tr)
  /\ (forall e, r = Raise e -> outcome w GracefulClose <> Some e ->
      ~ In GracefulClose tr).
Proof.
  intros r tr.
  assert (Hclose : In GracefulClose tr ->
            tr = full_trace /\ all_returned w /\ r = result_of w GracefulClose).
  { intros Hin. subst r tr. unfold run in *.
    destruct (script w (mk_state None [])) as [r st'] eqn:Hrun.
    destruct (script_closing w _ _ _ Hrun) as (Htr & Hall & Hr); auto. }
  split; [| split; [| split; [| split; [| split]]]].
  - destruct (in_dec (fun a b => match Bool.bool_dec (ext_call_eqb a b) true with
                                 | left H => left (proj1 (ext_call_eqb_eq a b) H)
                                 | right H => right (fun E => H (proj2 (ext_call_eqb_eq a b) E))
                                 end) GracefulClose tr) as [Hin | Hnot].
    + destruct (Hclose Hin) as (-> & _). vm_compute. lia.
    + rewrite times_called_absent by assumption. lia.
  - exists [Imports; DeviceCount; SetLevel; MkTagContinuous; MkEnvWrapper;
            GetTaggers; GetRunners; MkWarpDriveModule; MkCudaCallback;
            GetTrainingBatchSize; GetNumIters; MkPerfStatsCallback; MkTrainer].
    split; [reflexivity |].
    simpl. intros H. repeat destruct H as [H | H]; try discriminate. exact H.
  - intros Hr. apply Hclose. subst r tr. unfold run in *.
    destruct (script w (mk_state None [])) as [r st'] eqn:Hrun.
    simpl in Hr. subst r. eapply script_reaches_close, Hrun.
  - exact Hclose.
  - intros Hfail Hin. destruct (Hclose Hin) as (_ & [Hg Hall] & _).
    destruct Hfail as [Hz | (c & Hc & Hout)]; [lia |].
    apply Hout, Hall, Hc.
  - intros e Hr Hout Hin. destruct (Hclose Hin) as (_ & _ & Hres).
    rewrite Hr in Hres. unfold result_of in Hres.
    destruct (outcome w GracefulClose); [| discriminate].
    injection Hres as ->. now apply Hout.
Qed.

(** C8, as amended.  No statement of the script itself writes to
    [run_config]: at the end of every run the object, if the assignment
    of line 54 was reached, holds exactly what the calls that were handed
    it ([WarpDriveModule(config=run_config)] and the later calls on or
    with [wd_module]) made of the literal, in the order of the calls, and
    it holds that at the end of every run that returns normally.  So when
    those collaborators do not write to it, its contents at the end are
    its contents at creation. *)
Theorem run_config_is_only_read (w : world) :
  let final := snd (run w) in
  (config_object final = None
   \/ config_object final = Some (written_by w (trace final) run_config))
  /\ (fst (run w) = Ok tt ->
      config_object final = Some (written_by w full_trace run_config))
  /\ (read_only_collaborators w ->
      pristine final
      /\ (fst (run w) = Ok tt -> config_object final = Some run_config)).
Proof.
  intros final. subst final.
  pose proof (run_accounted w) as Hacc.
  split; [| split].
  - destruct Hacc as [[Hnone _] | Hsome]; auto.
  - intros Hok. destruct Hacc as [[_ Hnot] | Hsome]; [contradiction |].
    rewrite Hsome. do 2 f_equal.
    unfold run in *. destruct (script w (mk_state None [])) as [r st'] eqn:Hrun.
    simpl in *. subst r.
    destruct (script_closing w _ _ _ Hrun) as (Htr & _).
    + simpl. auto.
    + eapply script_reaches_close, Hrun.
    + exact Htr.
  - intros Hro. unfold run.
    destruct (script w (mk_state None [])) as [r st'] eqn:Hrun. simpl. split.
    + apply (script_pristine w Hro _ _ _ Hrun). now left.
    + intros ->. eapply script_settled; eauto.
Qed.

(** C8 as stated fails: when the constructor of [WarpDriveModule] adds an
    entry to the dictionary it is given, the script runs to its end and
    [run_config] no longer has the contents the literal gave it. *)
Lemma collaborator_can_rewrite_run_config :
  fst (run appending_world) = Ok tt
  /\ config_object (snd (run appending_world)) <> Some run_config
  /\ (exists v, config_object (snd (run appending_world)) = Some v
                /\ subscript v "seed" = Ok (PInt 0)
                /\ subscript run_config "seed" = Raise (KeyError "seed")).
Proof.
  split; [vm_compute; reflexivity |]. split.
  - intros H.
    apply (f_equal (fun o => match o with
                             | Some (PDict d) => length d
                             | _ => 0%nat
                             end)) in H.
    vm_compute in H. discriminate.
  - eexists. split; [vm_compute; reflexivity |].
    split; vm_compute; reflexivity.
Qed.

(** *** The claims on concrete worlds *)

(** C5 and C6 with one GPU and well-behaved collaborators: the run
    returns, having made every call once, [graceful_close] last. *)
Lemma quiet_run :
  run (quiet_world 1) = (Ok tt, mk_state (Some run_config) full_trace).
Proof. vm_compute. reflexivity. Qed.

(** C6 when training fails: [graceful_close] is not called. *)
Lemma failed_fit_is_not_closed :
  let w := mk_world 1
             (fun c => if ext_call_eqb c Fit
                       then Some (ExternalError "fit") else None)
             (fun _ v => v) (fun _ _ _ => Raise TypeError) in
  fst (run w) = Raise (ExternalError "fit")
  /\ ~ In GracefulClose (trace (snd (run w))).
Proof.
  intros w. split; [vm_compute; reflexivity |].
  apply (graceful_close_only_after_fit w).
  right. exists Fit. split; discriminate.
Defined.

(** C5 without a GPU. *)
Lemma no_gpu_witness :
  run (quiet_world 0) = (Raise AssertionError, mk_state None [Imports; DeviceCount]).
Proof.
  apply (proj1 (proj2 (proj2 gpu_check_fails_iff_no_gpu))); reflexivity.
Defined.

(** C8 in the quiet world. *)
Lemma run_config_witness :
  config_object (snd (run (quiet_world 1))) = Some run_config.
Proof.
  apply (proj2 (proj2 (run_config_is_only_read (quiet_world 1)))).
  - intros c v _. reflexivity.
  - vm_compute. reflexivity.
Defined.

End DriverFacts.

(** ** True division *)

Module TrueDivideFacts.

Import TrueDivide.

(** *** Rounding a fraction to an integer *)

Lemma round_half_even_near (n d : Z) :
  0 < d ->
  - d <= 2 * (n - round_half_even n d * d) <= d.
Proof.
  intros Hd. unfold round_half_even. cbv zeta.
  pose proof (Z.div_mod n d ltac:(lia)) as Hdiv.
  pose proof (Z.mod_pos_bound n d Hd) as Hmod.
  set (q := n / d) in *. set (r := n mod d) in *.
  assert (Hn : n - q * d = r) by lia.
  destruct (Z.compare_spec (2 * r) d) as [E | E | E].
  - destruct (Z.even q); [lia |].
    replace (n - (q + 1) * d) with (r - d) by lia. lia.
  - lia.
  - replace (n - (q + 1) * d) with (r - d) by lia. lia.
Qed.

Lemma round_half_even_exact (q d : Z) :
  0 < d -> round_half_even (q * d) d = q.
Proof.
  intros Hd. unfold round_half_even.
  rewrite Z.div_mul, Z.mod_mul by lia.
  destruct (Z.compare_spec (2 * 0) d) as [E | E | E]; [lia | reflexivity | lia].
Qed.

Lemma round_half_even_lower (n d b : Z) :
  0 < d -> b * d <= n -> b <= round_half_even n d.
Proof.
  intros Hd Hb. unfold round_half_even.
  assert (b <= n / d) by (apply Z.div_le_lower_bound; lia).
  destruct (2 * (n mod d) ?= d); [destruct (Z.even (n / d)) | |]; lia.
Qed.

(** *** Powers of two *)

Lemma pow2_pos (k : Z) : 0 <= k -> 0 < 2 ^ k.
Proof. intros. apply Z.pow_pos_nonneg; lia. Qed.

Lemma pow2_divide (a b : Z) :
  0 <= a -> 0 <= b -> ((2 ^ a | 2 ^ b) <-> a <= b).
Proof.
  intros Ha Hb. split.
  - intros Hdiv. destruct (Z_le_gt_dec a b) as [H | H]; [exact H |].
    apply Z.divide_pos_le in Hdiv; [| now apply pow2_pos].
    assert (2 ^ b < 2 ^ a) by (apply Z.pow_lt_mono_r; lia). lia.
  - intros Hab. exists (2 ^ (b - a)).
    rewrite <- Z.pow_add_r by lia. f_equal. lia.
Qed.

(** *** The binary logarithm of a fraction *)

Lemma ilog2_lower (n d : Z) :
  0 < n -> 0 < d ->
  (0 <= ilog2 n d -> d * 2 ^ ilog2 n d <= n)
  /\ (ilog2 n d < 0 -> d <= n * 2 ^ (- ilog2 n d)).
Proof.
  intros Hn Hd. unfold ilog2, below_pow2.
  pose proof (Z.log2_spec n Hn) as [Hn1 Hn2].
  pose proof (Z.log2_spec d Hd) as [Hd1 Hd2].
  pose proof (Z.log2_nonneg n) as Hln.
  pose proof (Z.log2_nonneg d) as Hld.
  set (a := Z.log2 n) in *. set (b := Z.log2 d) in *.
  replace (Z.succ a) with (a + 1) in * by lia.
  replace (Z.succ b) with (b + 1) in * by lia.
  destruct (Z.leb_spec 0 (a - b)) as [Hk | Hk].
  - destruct (Z.ltb_spec n (d * 2 ^ (a - b))) as [Hlt | Hge].
    + split; intros HL.
      * (* d * 2^(k-1) < 2^(b+1) * 2^(k-1) = 2^a <= n *)
        assert (Hp : 2 ^ (b + 1) * 2 ^ (a - b - 1) = 2 ^ a).
        { rewrite <- Z.pow_add_r by lia. f_equal. lia. }
        pose proof (pow2_pos (a - b - 1) ltac:(lia)). nia.
      * (* k = 0, L = -1 *)
        assert (a - b = 0) as Hab by lia.
        replace (- (a - b - 1)) with 1 by lia.
        assert (a = b) as Heq by lia. rewrite Heq in *.
        rewrite Z.pow_add_r in Hd2 by lia. change (2 ^ 1) with 2 in *. lia.
    + split; intros HL; [lia | lia].
  - destruct (Z.ltb_spec (n * 2 ^ (- (a - b))) d) as [Hlt | Hge].
    + split; intros HL; [lia |].
      assert (Hp : 2 ^ a * 2 ^ (- (a - b - 1)) = 2 ^ (b + 1)).
      { rewrite <- Z.pow_add_r by lia. f_equal. lia. }
      pose proof (pow2_pos (- (a - b - 1)) ltac:(lia)). nia.
    + split; intros HL; [lia | lia].
Qed.

Lemma ilog2_range (n d : Z) :
  0 < n < 2 ^ 53 -> 0 < d < 2 ^ 53 -> - 53 <= ilog2 n d <= 52.
Proof.
  intros Hn Hd.
  assert (Z.log2 n < 53) by (apply Z.log2_lt_pow2; lia).
  assert (Z.log2 d < 53) by (apply Z.log2_lt_pow2; lia).
  pose proof (Z.log2_nonneg n). pose proof (Z.log2_nonneg d).
  unfold ilog2. destruct (below_pow2 n d (Z.log2 n - Z.log2 d)); lia.
Qed.

(** *** Operands below [2 ^ 53] *)

Section Bounded.

Variables n d : Z.
Hypothesis Hn : 0 < n < 2 ^ 53.
Hypothesis Hd : 0 < d < 2 ^ 53.

(** The number of fraction bits of the quotient. *)
Let s : Z := 52 - ilog2 n d.

Lemma fraction_bits : 0 <= s <= 105.
Proof. pose proof (ilog2_range n d Hn Hd). unfold s. lia. Qed.

Lemma scaled_lower : 2 ^ 52 * d <= n * 2 ^ s.
Proof.
  pose proof (ilog2_range n d Hn Hd) as HL.
  destruct (ilog2_lower n d) as [Hpos Hneg]; [lia | lia |].
  unfold s. destruct (Z_le_gt_dec 0 (ilog2 n d)) as [H | H].
  - specialize (Hpos H).
    assert (Hp : 2 ^ ilog2 n d * 2 ^ (52 - ilog2 n d) = 2 ^ 52).
    { rewrite <- Z.pow_add_r by lia. f_equal. lia. }
    pose proof (pow2_pos (52 - ilog2 n d) ltac:(lia)).
    pose proof (pow2_pos (ilog2 n d) ltac:(lia)). nia.
  - specialize (Hneg ltac:(lia)).
    assert (Hp : 2 ^ (- ilog2 n d) * 2 ^ 52 = 2 ^ (52 - ilog2 n d)).
    { rewrite <- Z.pow_add_r by lia. f_equal. lia. }
    pose proof (pow2_pos (- ilog2 n d) ltac:(lia)). nia.
Qed.

(** A quotient that rounds to a multiple of [2 ^ s] is exact. *)
Lemma rounded_integer_is_exact :
  (2 ^ s | round_half_even (n * 2 ^ s) d) <-> (d | n).
Proof.
  pose proof fraction_bits as Hs.
  pose proof (pow2_pos s ltac:(lia)) as Hp.
  split.
  - intros [k Hk].
    pose proof (round_half_even_near (n * 2 ^ s) d ltac:(lia)) as Hnear.
    rewrite Hk in Hnear.
    exists k. destruct (Z.eq_dec n (k * d)) as [E | E]; [exact E | exfalso].
    (* the distance to the nearest multiple is at least 2 ^ s *)
    assert (Hfar : 2 * 2 ^ s <= d).
    { assert (n - k * d <= -1 \/ 1 <= n - k * d) as [H | H] by lia; nia. }
    pose proof scaled_lower as Hlow.
    assert (H53 : 2 ^ 53 = 2 * 2 ^ 52) by reflexivity.
    nia.
  - intros [q Hq]. exists q.
    replace (n * 2 ^ s) with (q * 2 ^ s * d) by (rewrite Hq; ring).
    apply round_half_even_exact. lia.
Qed.

Lemma round_to_binary64_bounded (sign : bool) :
  exists f,
    round_to_binary64 sign n d = Ok f
    /\ (is_integer f = true <-> (d | n)).
Proof.
  pose proof fraction_bits as Hs.
  pose proof (ilog2_range n d Hn Hd) as HL.
  pose proof scaled_lower as Hlow.
  pose proof rounded_integer_is_exact as Hexact.
  unfold round_to_binary64.
  rewrite Z.max_l by lia.
  assert (Hscale : scale n d (ilog2 n d - 52) = (n * 2 ^ s, d * 1)).
  { unfold scale, s. destruct (Z.ltb_spec (ilog2 n d - 52) 0) as [H | H].
    - f_equal; [f_equal; f_equal; lia | lia].
    - assert (ilog2 n d = 52) as -> by lia.
      replace (52 - 52) with 0 by lia. rewrite Z.pow_0_r. f_equal; lia. }
  rewrite Hscale, Z.mul_1_r.
  set (m0 := round_half_even (n * 2 ^ s) d) in *.
  assert (Hm0 : 2 ^ 52 <= m0) by (apply round_half_even_lower; lia).
  assert (H52 : 0 < 2 ^ 52) by reflexivity.
  unfold normalise.
  destruct (Z.eqb_spec m0 (2 ^ 53)) as [Hcarry | Hcarry].
  - (* the mantissa was carried to the next exponent *)
    change (2 ^ 52 =? 0) with false. cbv iota.
    destruct (Z.ltb_spec 971 (ilog2 n d - 52 + 1)); [lia |].
    eexists. split; [reflexivity |].
    rewrite <- Hexact, Hcarry. unfold is_integer.
    change (Z.pos (Z.to_pos (2 ^ 52))) with (2 ^ 52).
    rewrite pow2_divide by lia.
    destruct (Z.leb_spec 0 (ilog2 n d - 52 + 1)) as [H0 | H0]; simpl.
    + unfold s. split; [lia | reflexivity].
    + rewrite Z.eqb_eq, Z.mod_divide by (pose proof (pow2_pos (- (ilog2 n d - 52 + 1))); lia).
      rewrite pow2_divide by lia. unfold s. lia.
  - destruct (Z.eqb_spec m0 0); [lia |].
    destruct (Z.ltb_spec 971 (ilog2 n d - 52)); [lia |].
    eexists. split; [reflexivity |].
    rewrite <- Hexact. unfold is_integer.
    rewrite Z2Pos.id by lia.
    destruct (Z.leb_spec 0 (ilog2 n d - 52)) as [H0 | H0]; simpl.
    + assert (s = 0) as -> by (unfold s; lia).
      split; [intros _; apply Z.divide_1_l | reflexivity].
    + rewrite Z.eqb_eq, Z.mod_divide by (pose proof (pow2_pos (- (ilog2 n d - 52))); lia).
      replace (- (ilog2 n d - 52)) with s by (unfold s; lia). reflexivity.
Qed.

End Bounded.

(** [int / int] on operands below [2 ^ 53]: the result is integer-valued
    exactly when the divisor divides the dividend. *)
Lemma int_true_divide_bounded (a b : Z) :
  Z.abs a < 2 ^ 53 -> 0 < Z.abs b < 2 ^ 53 ->
  exists f,
    int_true_divide a b = Ok f /\ (is_integer f = true <-> (b | a)).
Proof.
  intros Ha Hb. unfold int_true_divide.
  destruct (Z.eqb_spec b 0) as [-> | Hb0]; [simpl in Hb; lia |].
  destruct (Z.eqb_spec a 0) as [-> | Ha0].
  - eexists. split; [reflexivity |]. simpl.
    split; [intros _; apply Z.divide_0_r | reflexivity].
  - destruct (round_to_binary64_bounded (Z.abs a) (Z.abs b) ltac:(lia) ltac:(lia)
                (xorb (a <? 0) (b <? 0))) as (f & Hf & Hint).
    exists f. split; [exact Hf |].
    rewrite Hint, Z.divide_abs_l, Z.divide_abs_r. reflexivity.
Qed.

End TrueDivideFacts.

(** ** The number of epochs (lines 326-337) *)

Module EpochsFacts.

Import TrueDivide TrueDivideFacts Config Driver.

(** The rounding above is the rounding of the machine: on the shipped
    operands, and on a quotient that is not exact, it gives what IEEE 754
    division of the two numbers gives. *)
Example agrees_with_binary64_division :
  int_true_divide 10000000 10000 = Ok (Prim2SF (10000000 / 10000)%float)
  /\ int_true_divide 1 3 = Ok (Prim2SF (1 / 3)%float)
  /\ int_true_divide 1 3
    = Ok (SFdiv 53 1024 (S754_finite false 1 0) (S754_finite false 3 0)).
Proof. repeat split; vm_compute; reflexivity. Qed.

(** The float [1000.0]. *)
Example one_thousand : Prim2SF 1000%float = S754_finite false 8796093022208000 (-43).
Proof. vm_compute. reflexivity. Qed.

(** C10, as amended.  The three operands of line 330 are read from the
    configuration as the integers 50000, 200 and 10000, and [num_epochs]
    is the float [1000.0]; on integers the division of line 330 never
    yields an integer object.  When the product
    [num_episodes * episode_length] and [training_batch_size] are below
    [2 ^ 53] in absolute value, the result is integer-valued exactly when
    [training_batch_size] divides the product. *)
Theorem num_epochs_is_a_float :
  (subscripts run_config ["trainer"; "num_episodes"]%string = Ok (PInt 50000)
   /\ subscripts run_config ["env"; "episode_length"]%string = Ok (PInt 200)
   /\ subscripts run_config ["trainer"; "train_batch_size"]%string = Ok (PInt 10000)
   /\ forall w, compute_num_epochs w (PInt 50000) (PInt 200) (PInt 10000)
                = Ok (PFloat (S754_finite false 8796093022208000 (-43))))
  /\ (forall w a b c v,
        compute_num_epochs w (PInt a) (PInt b) (PInt c) = Ok v ->
        exists f, v = PFloat f)
  /\ (forall a b c,
        Z.abs (a * b) < 2 ^ 53 -> 0 < Z.abs c < 2 ^ 53 ->
        exists f,
          num_epochs a b c = Ok f /\ (is_integer f = true <-> (c | a * b))).
Proof.
  split; [| split].
  - repeat split; vm_compute; reflexivity.
  - intros w a b c v. unfold compute_num_epochs.
    destruct (num_epochs a b c) as [f | e]; [| discriminate].
    intros [= <-]. exists f. reflexivity.
  - intros a b c Hab Hc. unfold num_epochs.
    now apply int_true_divide_bounded.
Qed.

(** C10 as stated fails beyond [2 ^ 53]: with [2 ^ 54 + 1] episodes of
    one timestep and a batch size of 2 the quotient rounds to [2 ^ 53],
    an integer value, although 2 does not divide the product. *)
Lemma integer_valued_without_dividing :
  num_epochs (2 ^ 54 + 1) 1 2 = Ok (S754_finite false (2 ^ 52) 1)
  /\ is_integer (S754_finite false (2 ^ 52) 1) = true
  /\ ~ (2 | (2 ^ 54 + 1) * 1).
Proof.
  split; [vm_compute; reflexivity |]. split; [reflexivity |].
  intros Hdiv. apply Z.mod_divide in Hdiv; [| lia].
  vm_compute in Hdiv. discriminate.
Qed.

(** C10 on the shipped operands: 10000 divides 50000 * 200, and 1000.0
    is integer-valued. *)
Lemma num_epochs_witness :
  exists f, num_epochs 50000 200 10000 = Ok f
            /\ (is_integer f = true <-> (10000 | 50000 * 200)).
Proof.
  apply (proj2 (proj2 num_epochs_is_a_float) 50000 200 10000).
  - vm_compute. reflexivity.
  - split; vm_compute; reflexivity.
Defined.

End EpochsFacts.

(** ** More about the renderer *)

Module RendererExtras.

Import PyFacts Renderer RendererFacts Samples.

Section Frames.

Context {C : Coord}.
Variables (es : episode_states) (env : environment) (sty : style).

(** *** What one pass does to a marker *)

Lemma agent_step_data ax ay fl i idx l :
  loc_x es = Some ax -> loc_y es = Some ay -> still_in_the_game es = Some fl ->
  xs (agent_step es env sty i idx l)
  = normalised env (if (i <? nrows ax)%nat then [item ax i idx] else [])
  /\ ys (agent_step es env sty i idx l)
    = normalised env (if (i <? nrows ay)%nat then [item ay i idx] else [])
  /\ zs (agent_step es env sty i idx l) = [fzero]
  /\ markersize (agent_step es env sty i idx l) = markersize l.
Proof.
  intros Hx Hy Hf. unfold agent_step. rewrite Hx, Hy, Hf.
  destruct (item fl i idx =? 0); simpl; auto.
Qed.

Lemma agent_step_idempotent i idx l :
  agent_step es env sty i idx (agent_step es env sty i idx l)
  = agent_step es env sty i idx l.
Proof.
  unfold agent_step.
  destruct (loc_x es), (loc_y es), (still_in_the_game es) as [fl|]; try reflexivity.
  destruct (item fl i idx =? 0); reflexivity.
Qed.

(** *** Frames drawn in any order *)

Lemma render_any_frames n t fl :
  well_shaped es n t -> still_in_the_game es = Some fl ->
  forall js fig0,
  (length (lines fig0) <= n)%nat -> Forall (fun j => (j < t)%nat) js ->
  exists fig,
    for_each js (animate es env sty) fig0 = (Ok tt, fig)
    /\ length (lines fig) = length (lines fig0)
    /\ forall idx l0, lines fig0 !! idx = Some l0 ->
        exists l, lines fig !! idx = Some l
          /\ color l = (if existsb (fun k => item fl k idx =? 0) js
                        then runner_not_in_game_color sty else color l0)
          /\ marker l = (if existsb (fun k => item fl k idx =? 0) js
                         then ""%string else marker l0)
          /\ markersize l = markersize l0.
Proof.
  intros Hw Hf. induction js as [|j js IH]; intros fig0 Hlen Hjs.
  - exists fig0. split; [reflexivity |]. split; [reflexivity |].
    intros idx l0 H0. exists l0. auto.
  - inversion Hjs as [|? ? Hj Hjs']; subst.
    simpl for_each. unfold bind at 1.
    rewrite (animate_ok es env sty n t j fig0 fl) by assumption.
    set (fig1 := mk_figure _ _).
    destruct (IH fig1) as (fig & Hrun & Hlen' & Hlines).
    { subst fig1. simpl. now rewrite length_imap. }
    { exact Hjs'. }
    exists fig. split; [exact Hrun |]. split.
    { rewrite Hlen'. subst fig1. simpl. apply length_imap. }
    intros idx l0 H0.
    destruct (Hlines idx (agent_step es env sty j idx l0)) as (l & Hl & Hc & Hm & Hs).
    { subst fig1. simpl. rewrite list_lookup_imap, H0. reflexivity. }
    exists l. split; [exact Hl |].
    destruct (agent_step_color es env sty n t fl j idx l0 Hw Hf) as [Hc1 Hm1].
    destruct Hw as (ax & ay & fl' & Hx & Hy & Hf' & _).
    destruct (agent_step_data ax ay fl j idx l0 Hx Hy Hf) as (_ & _ & _ & Hs1).
    rewrite Hc, Hm, Hs, Hc1, Hm1, Hs1. simpl existsb.
    destruct (item fl j idx =? 0), (existsb _ js); simpl; auto.
Qed.

Lemma imap_agent_step_idempotent i (ls : list line3d) :
  imap (agent_step es env sty i) (imap (agent_step es env sty i) ls)
  = imap (agent_step es env sty i) ls.
Proof.
  apply list_eq. intros idx. rewrite !list_lookup_imap.
  destruct (ls !! idx); simpl; [| reflexivity].
  now rewrite agent_step_idempotent.
Qed.

(** Drawing a frame twice in a row leaves the figure as drawing it once
    does.  (matplotlib draws the first frame once when the animation is
    set up and once more as frame 0.) *)
Theorem animate_is_idempotent n t i fig :
  well_shaped es n t -> (i < t)%nat -> (length (lines fig) <= n)%nat ->
  exists fig1,
    animate es env sty i fig = (Ok tt, fig1)
    /\ animate es env sty i fig1 = (Ok tt, fig1).
Proof.
  intros Hw Hi Hlen.
  destruct Hw as (ax & ay & fl & Hx & Hy & Hf & Hrest).
  assert (Hw : well_shaped es n t) by (exists ax, ay, fl; auto).
  rewrite (animate_ok es env sty n t i fig fl) by assumption.
  eexists. split; [reflexivity |].
  rewrite (animate_ok es env sty n t i _ fl); try assumption.
  - simpl. now rewrite imap_agent_step_idempotent.
  - simpl. now rewrite length_imap.
Qed.

(** *** A frame beyond the snapshot *)

Lemma animate_beyond_flags fl i fig :
  has_positions es (length (lines fig)) -> still_in_the_game es = Some fl ->
  (length (lines fig) <= ncols fl)%nat -> (nrows fl <= i)%nat ->
  fst (animate es env sty i fig) = Raise IndexError.
Proof.
  intros (ax & ay & Hx & Hy & Hnx & Hny) Hf Hnf Hi.
  unfold animate. unfold bind at 1, gets.
  destruct (lines fig) as [|l ls] eqn:Hl.
  - simpl. unfold bind, lift, runners_alive, lookup_channel. rewrite Hf.
    unfold getrow. destruct (Nat.ltb_spec i (nrows fl)); [lia | reflexivity].
  - simpl length in *. simpl seq. simpl for_each.
    unfold bind at 1. unfold bind at 1.
    unfold animate_agent at 1. rewrite Hx, Hy, Hf.
    unfold bind, lift, lookup_channel, update_line, modify.
    rewrite !getslice_ok by lia. unfold getitem.
    destruct (Nat.ltb_spec i (nrows fl)); [lia | reflexivity].
Qed.

(** *** The exceptions of [animate] *)




End Frames.

Section Animation.

Context {C : Coord}.

Lemma renderable_generate (wd : warp_drive_module) (sty : style)
    (es : episode_states) t :
  let env := cuda_envs_env wd in
  renderable wd sty es t ->
  generate_tag_env_rollout_animation (Some wd) sty
  = Ok (mk_animation
          (mk_figure (map (initial_line es env sty) (range (num_agents env)))
             (mk_label (PyInt 0) (PyInt (init_num_runners env))
                (Quotient (init_num_runners env) (init_num_runners env))))
          (animate es env sty) (range (episode_length env + 1)) (1000, fps sty)).
Proof.
  intros env (Hfetch & Hw & Hinit & Hfps).
  apply generate_ok; eauto using well_shaped_positions.
Qed.

(** The figure of a new animation: one marker for each of
    [env.num_agents] agents, each with the glyph "o", a tagger in the
    tagger color at size 10 and a runner in the runner color at size 5;
    the label shows timestep 0 with every runner in the game; and no
    frame adds or removes a marker. *)
Theorem markers_of_a_new_animation (wd : warp_drive_module) (sty : style)
    (es : episode_states) (t : nat) :
  let env := cuda_envs_env wd in
  renderable wd sty es t ->
  exists ani,
    generate_tag_env_rollout_animation (Some wd) sty = Ok ani
    /\ Z.of_nat (length (lines (ani_fig ani))) = Z.max 0 (num_agents env)
    /\ (forall idx, (idx < length (lines (ani_fig ani)))%nat ->
        exists l, lines (ani_fig ani) !! idx = Some l
          /\ marker l = "o"%string
          /\ (is_tagger env idx = true ->
              color l = tagger_color sty /\ markersize l = 10)
          /\ (is_tagger env idx = false ->
              color l = runner_color sty /\ markersize l = 5))
    /\ label (ani_fig ani)
      = mk_label (PyInt 0) (PyInt (init_num_runners env))
          (Quotient (init_num_runners env) (init_num_runners env))
    /\ (forall i fig r fig',
        ani_func ani i fig = (r, fig') ->
        length (lines fig') = length (lines fig)).
Proof.
  intros env Hr. rewrite (renderable_generate wd sty es t Hr). fold env.
  eexists. split; [reflexivity |]. simpl. unfold range.
  rewrite length_map, length_seq.
  split; [lia |]. split; [| split; [reflexivity |]].
  - intros idx Hidx. exists (initial_line es env sty idx).
    split; [now apply initial_lines_lookup |].
    unfold initial_line, role_color. simpl.
    split; [reflexivity |]. split; intros ->; auto.
  - intros i fig r fig' Hrun.
    apply (animate_no_reset es env sty i _ _ _ Hrun).
Qed.

(** Whatever frames are drawn, and in whatever order, an agent's marker
    has lost its glyph exactly when the agent is flagged out of the game
    in one of the frames drawn; otherwise it still has the glyph "o". *)
Theorem glyph_removed_iff_flagged_in_a_drawn_frame
    (wd : warp_drive_module) (sty : style) (es : episode_states)
    (fl : ndarray Z) (t idx : nat) (js : list nat) :
  let env := cuda_envs_env wd in
  renderable wd sty es t -> still_in_the_game es = Some fl ->
  Forall (fun j => (j < t)%nat) js ->
  (idx < Z.to_nat (num_agents env))%nat ->
  exists ani fig l,
    generate_tag_env_rollout_animation (Some wd) sty = Ok ani
    /\ play ani js = (Ok tt, fig)
    /\ lines fig !! idx = Some l
    /\ (marker l = ""%string <-> exists k, In k js /\ item fl k idx = 0)
    /\ (marker l = ""%string \/ marker l = "o"%string).
Proof.
  intros env Hr Hf Hjs Hidx.
  rewrite (renderable_generate wd sty es t Hr). fold env.
  destruct Hr as (_ & Hw & _ & _). fold env in Hw.
  set (fig0 := mk_figure (map (initial_line es env sty) (range (num_agents env)))
                 (mk_label (PyInt 0) (PyInt (init_num_runners env))
                    (Quotient (init_num_runners env) (init_num_runners env)))).
  destruct (render_any_frames es env sty _ t fl Hw Hf js fig0) as (fig & Hrun & _ & Hlines).
  { subst fig0. simpl. unfold range. rewrite length_map, length_seq. lia. }
  { exact Hjs. }
  destruct (Hlines idx (initial_line es env sty idx)) as (l & Hl & _ & Hm & _).
  { subst fig0. simpl. now apply initial_lines_lookup. }
  eexists. exists fig, l. split; [reflexivity |].
  split; [exact Hrun |]. split; [exact Hl |].
  rewrite Hm. simpl marker.
  destruct (existsb (fun k => item fl k idx =? 0) js) eqn:E.
  - split; [| now left]. split; [intros _ | reflexivity].
    apply existsb_exists in E as (k & Hin & Hk). exists k.
    split; [exact Hin | now apply Z.eqb_eq].
  - split; [| now right]. split; [discriminate |].
    intros (k & Hin & Hk). exfalso.
    assert (existsb (fun k => item fl k idx =? 0) js = true) as E'.
    { apply existsb_exists. exists k. split; [exact Hin | now apply Z.eqb_eq]. }
    congruence.
Qed.

(** The figure right after frame [j], whatever was drawn before: every
    marker sits at the agent's position of timestep [j] divided by the
    grid length, at height zero, and the label shows timestep [j] with
    that timestep's count: the total of the row of flags less
    [env.num_taggers], in the 64-bit integer arithmetic of numpy, which
    wraps around (the tagger count being in the range of a 64-bit
    integer).  (A position channel with fewer than [j + 1] rows leaves
    the marker without a point: the slice is empty.) *)
Theorem figure_after_a_frame
    (wd : warp_drive_module) (sty : style) (es : episode_states)
    (ax ay : ndarray coord) (fl : ndarray Z) (t idx j : nat) (js : list nat) :
  let env := cuda_envs_env wd in
  renderable wd sty es t ->
  loc_x es = Some ax -> loc_y es = Some ay -> still_in_the_game es = Some fl ->
  Forall (fun k => (k < t)%nat) js -> (j < t)%nat ->
  (idx < Z.to_nat (num_agents env))%nat ->
  0 <= num_taggers env < 2 ^ 63 ->
  let row := map (item fl j) (seq 0 (ncols fl)) in
  exists ani fig l,
    generate_tag_env_rollout_animation (Some wd) sty = Ok ani
    /\ play ani (js ++ [j]) = (Ok tt, fig)
    /\ lines fig !! idx = Some l
    /\ xs l = (if (j <? nrows ax)%nat
               then [fdiv (item ax j idx) (grid_length env)] else [])
    /\ ys l = (if (j <? nrows ay)%nat
               then [fdiv (item ay j idx) (grid_length env)] else [])
    /\ zs l = [fzero]
    /\ label fig = frame_label (flags_kind es) env j row
    /\ timestep (label fig) = NpInt64 (Z.of_nat j)
    /\ n_runners_alive (label fig)
      = np_scalar (flags_kind es)
          (wrap64 (flags_kind es) (fold_right Z.add 0 row - num_taggers env)).
Proof.
  intros env Hr Hx Hy Hf Hjs Hj Hidx Htag row.
  rewrite (renderable_generate wd sty es t Hr). fold env.
  destruct Hr as (_ & Hw & _ & _). fold env in Hw.
  set (fig0 := mk_figure (map (initial_line es env sty) (range (num_agents env)))
                 (mk_label (PyInt 0) (PyInt (init_num_runners env))
                    (Quotient (init_num_runners env) (init_num_runners env)))).
  destruct (render_any_frames es env sty _ t fl Hw Hf js fig0)
    as (fig & Hrun & Hlen & Hlines).
  { subst fig0. simpl. unfold range. rewrite length_map, length_seq. lia. }
  { exact Hjs. }
  destruct (Hlines idx (initial_line es env sty idx)) as (l & Hl & _).
  { subst fig0. simpl. now apply initial_lines_lookup. }
  eexists. eexists. exists (agent_step es env sty j idx l).
  split; [reflexivity |]. unfold play. simpl ani_func. simpl ani_fig. fold fig0.
  rewrite for_each_app, (bind_ok _ _ _ _ _ Hrun). simpl for_each. unfold bind at 1.
  rewrite (animate_ok es env sty _ t j fig fl Hw Hf Hj).
  2:{ rewrite Hlen. subst fig0. simpl. unfold range.
      rewrite length_map, length_seq. lia. }
  split; [reflexivity |]. cbn [lines label].
  split; [rewrite list_lookup_imap, Hl; reflexivity |].
  destruct (agent_step_data es env sty ax ay fl j idx l Hx Hy Hf) as (-> & -> & -> & _).
  unfold normalised. fold row.
  split; [destruct (j <? nrows ax)%nat; reflexivity |].
  split; [destruct (j <? nrows ay)%nat; reflexivity |].
  split; [reflexivity |]. split; [reflexivity |]. split; [reflexivity |].
  unfold frame_label. cbn [n_runners_alive]. unfold sum.
  now rewrite wrap64_minus.
Qed.

(** A snapshot with fewer columns than the environment has agents: the
    plotting loop raises [IndexError] at the first agent without a
    column, and no animation is built. *)
Theorem narrow_snapshot_raises_index_error
    (wd : warp_drive_module) (sty : style) (es : episode_states)
    (ax ay : ndarray coord) :
  let env := cuda_envs_env wd in
  fetch_episode_states wd ["loc_x"; "loc_y"; "still_in_the_game"]%string
    = Ok (PyDict es) ->
  loc_x es = Some ax -> loc_y es = Some ay ->
  (Nat.min (ncols ax) (ncols ay) < Z.to_nat (num_agents env))%nat ->
  generate_tag_env_rollout_animation (Some wd) sty = Raise IndexError.
Proof.
  intros env Hfetch Hx Hy Hnarrow.
  unfold generate_tag_env_rollout_animation, fetch_and_validate.
  rewrite Hfetch. fold env.
  set (m := Nat.min (ncols ax) (ncols ay)) in *.
  assert (Hplot : forall k a,
            (a + k = m)%nat ->
            map_result (plot_agent es env sty)
              (seq a k ++ seq m (Z.to_nat (num_agents env) - m))
            = Raise IndexError).
  { induction k as [|k IH]; intros a Ha.
    - replace a with m by lia. simpl app.
      destruct (Z.to_nat (num_agents env) - m)%nat as [|r] eqn:E; [lia |].
      simpl seq. apply map_result_raise.
      unfold plot_agent, lookup_channel. rewrite Hx, Hy. unfold getslice.
      destruct (Nat.ltb_spec m (ncols ax)); [| reflexivity].
      destruct (Nat.ltb_spec m (ncols ay)); [lia | reflexivity].
    - simpl.
      rewrite (plot_agent_ok es env sty m a) by (try lia; exists ax, ay; repeat split; auto; lia).
      rewrite IH by lia. reflexivity. }
  unfold range.
  replace (seq 0 (Z.to_nat (num_agents env)))
    with (seq 0 m ++ seq m (Z.to_nat (num_agents env) - m)).
  - now rewrite Hplot.
  - rewrite <- seq_app. f_equal. lia.
Qed.

(** A snapshot with fewer rows of flags than the episode has frames:
    the animation is built with all its frames, the frames the snapshot
    covers are drawn, and playing the animation through raises
    [IndexError]. *)
Theorem short_snapshot_raises_index_error
    (wd : warp_drive_module) (sty : style) (es : episode_states)
    (fl : ndarray Z) (t : nat) :
  let env := cuda_envs_env wd in
  renderable wd sty es t -> still_in_the_game es = Some fl ->
  nrows fl = t -> Z.of_nat t <= episode_length env ->
  exists ani,
    generate_tag_env_rollout_animation (Some wd) sty = Ok ani
    /\ (exists fig, play ani (seq 0 t) = (Ok tt, fig))
    /\ fst (play ani (ani_frames ani)) = Raise IndexError.
Proof.
  intros env Hr Hf Hrows HT.
  rewrite (renderable_generate wd sty es t Hr). fold env.
  destruct Hr as (_ & Hw & _ & _). fold env in Hw.
  set (fig0 := mk_figure (map (initial_line es env sty) (range (num_agents env)))
                 (mk_label (PyInt 0) (PyInt (init_num_runners env))
                    (Quotient (init_num_runners env) (init_num_runners env)))).
  assert (Hlen0 : length (lines fig0) = Z.to_nat (num_agents env)).
  { subst fig0. simpl. unfold range. now rewrite length_map, length_seq. }
  destruct (render_frames es env sty _ t fl fig0 Hw Hf) with (j := t)
    as (fig & Hrun & Hlen & _); [lia | lia |].
  eexists. split; [reflexivity |]. unfold play. simpl. fold fig0.
  split; [exists fig; exact Hrun |].
  unfold range.
  replace (Z.to_nat (episode_length env + 1))
    with (t + S (Z.to_nat (episode_length env) - t))%nat by lia.
  rewrite seq_app, for_each_app, (bind_ok _ _ _ _ _ Hrun).
  simpl seq. simpl for_each. unfold bind at 1.
  pose proof (animate_beyond_flags es env sty fl t fig) as Hbeyond.
  destruct Hw as (ax & ay & fl' & Hx & Hy & Hf' & Hnx & Hny & Hnf & _).
  rewrite Hf in Hf'. injection Hf' as <-.
  destruct (animate es env sty t fig) as [[[]|e] fig1] eqn:E; simpl in Hbeyond.
  - discriminate Hbeyond; [exists ax, ay; repeat split; auto; lia | auto | lia | lia].
  - simpl. apply Hbeyond; [exists ax, ay; repeat split; auto; lia | auto | lia | lia].
Qed.

(** On a snapshot that can be plotted, the renderer raises
    [ZeroDivisionError] exactly when there is no runner at the start
    (line 259, for the first label) or [fps] is zero (line 294). *)
Theorem zero_division_iff_no_runner_or_no_fps
    (wd : warp_drive_module) (sty : style) (es : episode_states) :
  let env := cuda_envs_env wd in
  fetch_episode_states wd ["loc_x"; "loc_y"; "still_in_the_game"]%string
    = Ok (PyDict es) ->
  has_positions es (Z.to_nat (num_agents env)) ->
  (generate_tag_env_rollout_animation (Some wd) sty = Raise ZeroDivisionError
   <-> init_num_runners env = 0 \/ fps sty = 0).
Proof.
  intros env Hfetch Hpos.
  destruct (Z.eq_dec (init_num_runners env) 0) as [Hinit | Hinit];
    [| destruct (Z.eq_dec (fps sty) 0) as [Hfps | Hfps]].
  - split; [auto | intros _].
    unfold generate_tag_env_rollout_animation, fetch_and_validate.
    rewrite Hfetch. fold env.
    rewrite (map_result_ok _ (initial_line es env sty)).
    + rewrite Hinit. reflexivity.
    + intros idx Hidx. eapply plot_agent_ok; [exact Hpos |].
      unfold range in Hidx. apply in_seq in Hidx. lia.
  - split; [auto | intros _].
    unfold generate_tag_env_rollout_animation, fetch_and_validate.
    rewrite Hfetch. fold env.
    rewrite (map_result_ok _ (initial_line es env sty)).
    + rewrite initial_label_ok by assumption. rewrite Hfps. reflexivity.
    + intros idx Hidx. eapply plot_agent_ok; [exact Hpos |].
      unfold range in Hidx. apply in_seq in Hidx. lia.
  - rewrite (generate_ok wd sty es Hfetch Hpos Hinit Hfps).
    split; [discriminate | intros [? | ?]; contradiction].
Qed.

Lemma plot_agent_raises (es : episode_states) (env : environment) (sty : style)
    idx e :
  plot_agent es env sty idx = Raise e ->
  e = IndexError \/ exists k, e = KeyError k.
Proof.
  unfold plot_agent, lookup_channel.
  destruct (loc_x es) as [ax|]; [| intros [= <-]; eauto].
  destruct (getslice ax 0 idx) eqn:Hsx;
    [| intros [= <-]; left; eapply getslice_raises, Hsx].
  destruct (loc_y es) as [ay|]; [| intros [= <-]; eauto].
  destruct (getslice ay 0 idx) eqn:Hsy;
    [| intros [= <-]; left; eapply getslice_raises, Hsy].
  discriminate.
Qed.

(** The renderer raises [AssertionError] only from its two assertions:
    when it is given [None] for the module, when what
    [fetch_episode_states] returns is not a dictionary, or when that call
    itself raises one. *)
Theorem assertion_error_only_from_validation
    (module : option warp_drive_module) (sty : style) :
  generate_tag_env_rollout_animation module sty = Raise AssertionError
  <-> module = None
      \/ exists wd,
           module = Some wd
           /\ (fetch_episode_states wd ["loc_x"; "loc_y"; "still_in_the_game"]%string
                = Ok PyOther
               \/ fetch_episode_states wd ["loc_x"; "loc_y"; "still_in_the_game"]%string
                  = Raise AssertionError).
Proof.
  unfold generate_tag_env_rollout_animation, fetch_and_validate.
  destruct module as [wd |]; [| split; auto].
  destruct (fetch_episode_states wd _) as [[es |] | e] eqn:Hfetch.
  - split.
    + destruct (map_result _ _) as [lines0 | e0] eqn:Hplot.
      * unfold _get_label, true_divide.
        destruct (init_num_runners (cuda_envs_env wd) =? 0); [discriminate |].
        destruct (fps sty =? 0); discriminate.
      * intros [= ->]. apply map_result_raise_inv in Hplot as (idx & _ & Hidx).
        apply plot_agent_raises in Hidx as [? | (k & ?)]; discriminate.
    + intros [? | (wd' & [= <-] & [? | ?])]; congruence.
  - split; [intros _ | reflexivity]. right. exists wd. auto.
  - split.
    + intros [= ->]. right. exists wd. auto.
    + intros [? | (wd' & [= <-] & [? | ?])]; congruence.
Qed.

(** A negative episode length gives an animation without frames rather
    than an error; playing it leaves the figure as it was built. *)
Theorem negative_episode_length_gives_no_frames
    (wd : warp_drive_module) (sty : style) (es : episode_states) (t : nat) :
  let env := cuda_envs_env wd in
  renderable wd sty es t -> episode_length env < 0 ->
  exists ani,
    generate_tag_env_rollout_animation (Some wd) sty = Ok ani
    /\ ani_frames ani = []
    /\ play ani (ani_frames ani) = (Ok tt, ani_fig ani).
Proof.
  intros env Hr HT. rewrite (renderable_generate wd sty es t Hr). fold env.
  eexists. split; [reflexivity |]. unfold play. simpl. unfold range.
  replace (Z.to_nat (episode_length env + 1)) with 0%nat by lia.
  split; reflexivity.
Qed.

End Animation.

(** *** On concrete snapshots *)

Lemma small_module_renderable :
  renderable small_module default_style small_states 3.
Proof.
  split; [reflexivity |]. split; [| split; vm_compute; discriminate].
  exists positions, positions, flags. simpl. repeat split; lia.
Qed.

Lemma animate_is_idempotent_witness :
  exists fig1,
    animate small_states small_env default_style 1 small_figure = (Ok tt, fig1)
    /\ animate small_states small_env default_style 1 fig1 = (Ok tt, fig1).
Proof.
  apply (animate_is_idempotent small_states small_env default_style 3 3 1
           small_figure).
  - exists positions, positions, flags. simpl. repeat split; lia.
  - lia.
  - simpl. lia.
Defined.


Lemma markers_of_a_new_animation_witness :
  exists ani,
    generate_tag_env_rollout_animation (Some small_module) default_style = Ok ani
    /\ Z.of_nat (length (lines (ani_fig ani))) = 3.
Proof.
  destruct (markers_of_a_new_animation small_module default_style small_states 3
              small_module_renderable) as (ani & Hgen & Hlen & _).
  exists ani. split; [exact Hgen | exact Hlen].
Defined.

(** Frame 2 first, then frame 0: agent 2, out of the game at timestep 2
    only, has lost its glyph although its flag at timestep 0 is set. *)
Lemma glyph_removed_witness :
  exists ani fig l,
    generate_tag_env_rollout_animation (Some small_module) default_style = Ok ani
    /\ play ani [2; 0]%nat = (Ok tt, fig)
    /\ lines fig !! 2%nat = Some l
    /\ marker l = ""%string.
Proof.
  destruct (glyph_removed_iff_flagged_in_a_drawn_frame small_module default_style
              small_states flags 3 2 [2; 0]%nat small_module_renderable eq_refl)
    as (ani & fig & l & Hgen & Hplay & Hl & Hiff & _).
  - repeat constructor.
  - vm_compute. lia.
  - exists ani, fig, l. repeat split; try assumption.
    apply Hiff. exists 2%nat. split; [now left | reflexivity].
Defined.

Lemma figure_after_a_frame_witness :
  exists ani fig l,
    generate_tag_env_rollout_animation (Some small_module) default_style = Ok ani
    /\ play ani [0; 1]%nat = (Ok tt, fig)
    /\ lines fig !! 1%nat = Some l
    /\ zs l = [S754_zero false]
    /\ label fig = mk_label (NpInt64 1) (NpInt64 1) (Quotient 1 2).
Proof.
  destruct (figure_after_a_frame small_module default_style small_states
              positions positions flags 3 1 1 [0%nat]
              small_module_renderable eq_refl eq_refl eq_refl)
    as (ani & fig & l & Hgen & Hplay & Hl & _ & _ & Hz & Hlab & _).
  - repeat constructor.
  - lia.
  - vm_compute. lia.
  - vm_compute. split; [discriminate | reflexivity].
  - exists ani, fig, l. repeat split; assumption.
Defined.

Lemma narrow_snapshot_witness :
  generate_tag_env_rollout_animation (Some narrow_module) default_style
  = Raise IndexError.
Proof.
  apply (narrow_snapshot_raises_index_error narrow_module default_style
           narrow_states narrow_positions positions); try reflexivity.
  vm_compute. lia.
Defined.

Lemma short_snapshot_witness :
  exists ani,
    generate_tag_env_rollout_animation (Some short_module) default_style = Ok ani
    /\ fst (play ani (ani_frames ani)) = Raise IndexError.
Proof.
  destruct (short_snapshot_raises_index_error short_module default_style
              short_states short_flags 2) as (ani & Hgen & _ & Hplay).
  - split; [reflexivity |]. split; [| split; vm_compute; discriminate].
    exists positions, positions, short_flags. simpl. repeat split; lia.
  - reflexivity.
  - reflexivity.
  - vm_compute. discriminate.
  - exists ani. split; assumption.
Defined.

Lemma zero_division_witness :
  generate_tag_env_rollout_animation (Some small_module) still_style
  = Raise ZeroDivisionError.
Proof.
  apply (zero_division_iff_no_runner_or_no_fps small_module still_style
           small_states).
  - reflexivity.
  - exists positions, positions. simpl. repeat split; lia.
  - right. reflexivity.
Defined.

Lemma negative_episode_length_witness :
  exists ani,
    generate_tag_env_rollout_animation (Some negative_length_module) default_style
    = Ok ani
    /\ ani_frames ani = [].
Proof.
  destruct (negative_episode_length_gives_no_frames negative_length_module
              default_style small_states 3) as (ani & Hgen & Hfr & _).
  - split; [reflexivity |]. split; [| split; vm_compute; discriminate].
    exists positions, positions, flags. simpl. repeat split; lia.
  - vm_compute. reflexivity.
  - exists ani. split; assumption.
Defined.

End RendererExtras.

(** ** More about the driver *)

Module DriverExtras.

Import PyFacts TrueDivide Config Driver DriverFacts.

Section Order.

Variable w : world.

Lemma in_order_call cs c (k : M state unit) :
  in_order cs k -> in_order (c :: cs) (call w c >> k).
Proof.
  intros Hk st r st' Hrun. unfold bind in Hrun.
  pose proof (call_trace w c st) as Htr.
  destruct (call w c st) as [[[]|e] st1]; simpl in Htr.
  - destruct (Hk st1 r st' Hrun) as (made & rest & Hmade & Hcs & Hok).
    exists (c :: made), rest. rewrite Hmade, Htr, <- app_assoc. simpl.
    split; [reflexivity |]. split; [now rewrite Hcs | exact Hok].
  - injection Hrun as <- <-. exists [c], cs.
    split; [exact Htr |]. split; [reflexivity | discriminate].
Qed.

Lemma in_order_silent {A} cs (m : M state A) (k : A -> M state unit) :
  silent m -> (forall a, in_order cs (k a)) -> in_order cs (bind m k).
Proof.
  intros Hm Hk st r st' Hrun. unfold bind in Hrun.
  destruct (m st) as [[a|e] st1] eqn:E; pose proof (Hm _ _ _ E) as Htr.
  - destruct (Hk a st1 r st' Hrun) as (made & rest & Hmade & Hcs & Hok).
    exists made, rest. rewrite Hmade, Htr. auto.
  - injection Hrun as <- <-. exists [], cs. rewrite Htr, app_nil_r.
    split; [reflexivity |]. split; [reflexivity | discriminate].
Qed.

Lemma in_order_last c : in_order [c] (call w c).
Proof.
  intros st r st' Hrun.
  pose proof (call_trace w c st) as Htr. rewrite Hrun in Htr. simpl in Htr.
  exists [c], []. auto.
Qed.

Lemma script_in_order : in_order full_trace (script w).
Proof.
  unfold script, gpu_check.
  repeat lazymatch goal with
  | |- in_order _ (bind (call _ _) _) => apply in_order_call
  | |- in_order _ (bind (py_assert _) _) =>
      apply in_order_silent; [apply silent_py_assert | intros ?]
  | |- in_order _ (bind assign_run_config _) =>
      apply in_order_silent; [apply silent_assign | intros ?]
  | |- in_order _ (bind (read_config _) _) =>
      apply in_order_silent; [apply silent_read | intros ?]
  | |- in_order _ (bind (lift _) _) =>
      apply in_order_silent; [apply silent_lift | intros ?]
  | |- in_order _ (call _ _) => apply in_order_last
  end.
Qed.

End Order.

(** Whatever the collaborators do, the calls of a run are an initial part
    of the calls of the whole script, in the order of the source text: no
    call is skipped, repeated or made out of turn; and a run that returns
    normally has made them all. *)
Theorem calls_follow_program_order (w : world) :
  exists rest,
    full_trace = trace (snd (run w)) ++ rest
    /\ (fst (run w) = Ok tt -> rest = []).
Proof.
  unfold run. destruct (script w (mk_state None [])) as [r st'] eqn:Hrun.
  destruct (script_in_order w _ _ _ Hrun) as (made & rest & Hmade & Hcs & Hok).
  simpl in *. exists rest. subst made. auto.
Qed.

(** *** Running the script statement by statement *)

Section Execution.

Variable w : world.
Hypothesis Hro : read_only_collaborators w.

Lemma step_call c (k : unit -> M state unit) st :
  bind (call w c) k st
  = match outcome w c with
    | None => k tt (mk_state (config_object st) (trace st ++ [c]))
    | Some e => (Raise e, mk_state (config_object st) (trace st ++ [c]))
    end.
Proof.
  unfold bind, call.
  assert (Hsame : (if reaches_config c
                   then option_map (effect w c) (config_object st)
                   else config_object st) = config_object st).
  { destruct (reaches_config c) eqn:Hr; [| reflexivity].
    destruct (config_object st); simpl; [| reflexivity].
    now rewrite Hro. }
  rewrite Hsame. destruct (outcome w c); reflexivity.
Qed.

Lemma step_last c st :
  call w c st
  = (result_of w c, mk_state (config_object st) (trace st ++ [c])).
Proof.
  pose proof (step_call c (fun _ => ret tt) st) as H.
  unfold bind, ret, result_of in *.
  destruct (call w c st) as [[[]|e] st1]; destruct (outcome w c);
    congruence.
Qed.

Lemma step_read ks v (k : pyval -> M state unit) tr :
  subscripts run_config ks = Ok v ->
  bind (read_config ks) k (mk_state (Some run_config) tr)
  = k v (mk_state (Some run_config) tr).
Proof. intros H. unfold bind, read_config. simpl. now rewrite H. Qed.

Lemma step_assign (k : unit -> M state unit) st :
  bind assign_run_config k st = k tt (mk_state (Some run_config) (trace st)).
Proof. reflexivity. Qed.

Lemma step_lift {A} (x : result A) a (k : A -> M state unit) st :
  x = Ok a -> bind (lift x) k st = k a st.
Proof. intros ->. reflexivity. Qed.

(** The reads the script makes find their keys in the literal. *)
Lemma reads_of_the_literal :
  (exists v, subscripts run_config ["env"]%string = Ok v)
  /\ (exists v, subscripts run_config ["trainer"; "num_envs"]%string = Ok v)
  /\ (exists v, subscripts run_config ["saving"; "metrics_log_freq"]%string = Ok v)
  /\ subscripts run_config ["trainer"; "num_episodes"]%string = Ok (PInt 50000)
  /\ subscripts run_config ["env"; "episode_length"]%string = Ok (PInt 200)
  /\ subscripts run_config ["trainer"; "train_batch_size"]%string = Ok (PInt 10000)
  /\ compute_num_epochs w (PInt 50000) (PInt 200) (PInt 10000)
    = Ok (PFloat (S754_finite false 8796093022208000 (-43))).
Proof.
  repeat split; try (eexists; vm_compute; reflexivity); vm_compute; reflexivity.
Qed.

Lemma step_ret {A} (a : A) (k : A -> M state unit) st :
  bind (ret a) k st = k a st.
Proof. reflexivity. Qed.

(** One call: either it raises, and the run ends there, or the script
    goes on. *)
Ltac run_call c :=
  rewrite (step_call c); cbn [config_object trace];
  let E := fresh "E" in
  destruct (outcome w c) as [?e|] eqn:E;
  [ right; left; eexists _, _, c, _;
    split; [reflexivity | split; [exact E | simpl; repeat constructor; assumption]]
  | ].

(** The three ways a run can go. *)
Lemma run_cases :
  (gpus w = 0%nat
   /\ run w = (Raise AssertionError, mk_state None [Imports; DeviceCount]))
  \/ (exists cfg before c e,
        run w = (Raise e, mk_state cfg (before ++ [c]))
        /\ outcome w c = Some e
        /\ Forall (fun c' => outcome w c' = None) before)
  \/ (run w = (Ok tt, mk_state (Some run_config) full_trace)
      /\ (0 < gpus w)%nat /\ forall c, outcome w c = None).
Proof.
  destruct reads_of_the_literal
    as ((v1 & R1) & (v2 & R2) & (v3 & R3) & R4 & R5 & R6 & R7).
  unfold run, script.
  run_call Imports.
  run_call DeviceCount.
  unfold gpu_check, py_assert.
  destruct (gpus w) as [|g] eqn:Hg.
  { left. split; reflexivity. }
  change (0 <? S g)%nat with true. cbv iota. rewrite step_ret.
  run_call SetLevel.
  rewrite step_assign. cbn [config_object trace].
  rewrite (step_read _ _ _ _ R1).
  run_call MkTagContinuous.
  rewrite (step_read _ _ _ _ R2).
  run_call MkEnvWrapper.
  run_call GetTaggers.
  run_call GetRunners.
  run_call MkWarpDriveModule.
  rewrite (step_read _ _ _ _ R3).
  run_call MkCudaCallback.
  run_call GetTrainingBatchSize.
  run_call GetNumIters.
  run_call MkPerfStatsCallback.
  rewrite (step_read _ _ _ _ R4).
  rewrite (step_read _ _ _ _ R5).
  rewrite (step_read _ _ _ _ R6).
  rewrite (step_lift _ _ _ _ R7).
  run_call MkTrainer.
  run_call Fit.
  rewrite (step_last GracefulClose). cbn [config_object trace].
  unfold result_of.
  destruct (outcome w GracefulClose) as [e|] eqn:Hclose.
  - right; left. eexists _, _, GracefulClose, _.
    split; [reflexivity | split; [exact Hclose | simpl; repeat constructor; assumption]].
  - right; right. split; [reflexivity |]. split; [lia |].
    intros c. destruct c; assumption.
Qed.

End Execution.

(** When the collaborators do not write to the configuration, the
    statements the script makes on its own (the reads of [run_config],
    the arithmetic of line 330) never raise: a run that ends in an
    exception either found no GPU and stopped at the assertion, right
    after the device count, or ends in the exception of the first call
    that raised, which is the last call made. *)
Theorem run_stops_at_the_first_failure (w : world) (e : exn) :
  read_only_collaborators w ->
  fst (run w) = Raise e ->
  (gpus w = 0%nat /\ e = AssertionError
   /\ trace (snd (run w)) = [Imports; DeviceCount])
  \/ (exists before c,
        trace (snd (run w)) = before ++ [c]
        /\ outcome w c = Some e
        /\ Forall (fun c' => outcome w c' = None) before).
Proof.
  intros Hro Hr.
  destruct (run_cases w Hro)
    as [(Hg & Hrun) | [(cfg & before & c & e' & Hrun & Hout & Hbefore)
                      | (Hrun & _)]];
    rewrite Hrun in Hr |- *; simpl in *.
  - left. injection Hr as <-. auto.
  - right. injection Hr as <-. exists before, c. auto.
  - discriminate.
Qed.

(** With a GPU, collaborators that all return and none of which writes
    to the configuration, the script runs to its end: every call is made
    once, in order, and the configuration is as the literal made it. *)
Theorem well_behaved_run_returns (w : world) :
  read_only_collaborators w -> (0 < gpus w)%nat ->
  (forall c, outcome w c = None) ->
  run w = (Ok tt, mk_state (Some run_config) full_trace).
Proof.
  intros Hro Hg Hall.
  destruct (run_cases w Hro)
    as [(Hz & _) | [(cfg & before & c & e' & _ & Hout & _) | (Hrun & _)]].
  - lia.
  - rewrite Hall in Hout. discriminate.
  - exact Hrun.
Qed.

(** A world whose collaborators return, on a machine with two GPUs, one
    of them rewriting nothing. *)
Lemma well_behaved_run_witness :
  run (quiet_world 2) = (Ok tt, mk_state (Some run_config) full_trace).
Proof.
  apply well_behaved_run_returns.
  - intros c v _. reflexivity.
  - simpl. lia.
  - intros c. reflexivity.
Defined.

(** Training that fails: the run ends in the exception of [fit], the
    last call made. *)
Lemma run_stops_witness :
  let w := mk_world 1
             (fun c => if ext_call_eqb c Fit
                       then Some (ExternalError "fit") else None)
             (fun _ v => v) (fun _ _ _ => Raise TypeError) in
  exists before,
    trace (snd (run w)) = before ++ [Fit]
    /\ Forall (fun c' => outcome w c' = None) before.
Proof.
  intros w.
  destruct (run_stops_at_the_first_failure w (ExternalError "fit"))
    as [(Hg & _) | (before & c & Htr & Hout & Hbefore)].
  - intros c v _. reflexivity.
  - vm_compute. reflexivity.
  - simpl in Hg. discriminate.
  - exists before. split; [| exact Hbefore].
    destruct c; try discriminate Hout. exact Htr.
Defined.

End DriverExtras.

(** ** More about the number of epochs *)

Module EpochsExtras.

Import TrueDivide TrueDivideFacts Config Driver.

Lemma round_to_binary64_exact (n d : Z) (sign : bool) :
  0 < n < 2 ^ 53 -> 0 < d < 2 ^ 53 -> (d | n) ->
  exists f,
    round_to_binary64 sign n d = Ok f
    /\ integer_value f = Some (if sign then - (n / d) else n / d).
Proof.
  intros Hn Hd [q Hq].
  pose proof (fraction_bits n d Hn Hd) as Hs.
  pose proof (ilog2_range n d Hn Hd) as HL.
  pose proof (scaled_lower n d Hn Hd) as Hlow.
  set (s := 52 - ilog2 n d) in *.
  assert (Hqd : n / d = q) by (rewrite Hq; apply Z.div_mul; lia).
  assert (Hq1 : 1 <= q < 2 ^ 53) by nia.
  pose proof (pow2_pos s ltac:(lia)) as Hp.
  unfold round_to_binary64.
  rewrite Z.max_l by lia.
  assert (Hscale : scale n d (ilog2 n d - 52) = (n * 2 ^ s, d * 1)).
  { unfold scale, s. destruct (Z.ltb_spec (ilog2 n d - 52) 0) as [H | H].
    - f_equal; [f_equal; f_equal; lia | lia].
    - assert (ilog2 n d = 52) as -> by lia.
      replace (52 - 52) with 0 by lia. rewrite Z.pow_0_r. f_equal; lia. }
  rewrite Hscale, Z.mul_1_r.
  assert (Hm0 : round_half_even (n * 2 ^ s) d = q * 2 ^ s).
  { replace (n * 2 ^ s) with (q * 2 ^ s * d) by (rewrite Hq; ring).
    apply round_half_even_exact. lia. }
  rewrite Hm0, Hqd. unfold normalise.
  assert (He : ilog2 n d - 52 = - s) by (unfold s; lia). rewrite He.
  destruct (Z.eqb_spec (q * 2 ^ s) (2 ^ 53)) as [Hcarry | Hcarry].
  - (* the mantissa is [2 ^ 53]: it is written as [2 ^ 52] at the next exponent *)
    assert (Hs1 : 1 <= s).
    { destruct (Z.eq_dec s 0) as [E | E]; [| lia].
      rewrite E, Z.pow_0_r in Hcarry. lia. }
    assert (Hhalf : 2 ^ 52 = q * 2 ^ (s - 1)).
    { assert (2 ^ s = 2 * 2 ^ (s - 1)) as Hsplit.
      { rewrite <- Z.pow_succ_r by lia. f_equal. lia. }
      assert (2 ^ 53 = 2 * 2 ^ 52) by reflexivity. nia. }
    change (2 ^ 52 =? 0) with false. cbv iota.
    destruct (Z.ltb_spec 971 (- s + 1)); [lia |].
    eexists. split; [reflexivity |].
    unfold integer_value. change (Z.pos (Z.to_pos (2 ^ 52))) with (2 ^ 52).
    pose proof (pow2_pos (s - 1) ltac:(lia)) as Hp1.
    destruct (Z.leb_spec 0 (- s + 1)) as [H0 | H0].
    + assert (s = 1) as Hs' by lia. rewrite Hs' in *.
      change (2 ^ (1 - 1)) with 1 in Hhalf. change (2 ^ (- (1) + 1)) with 1.
      simpl option_map. f_equal. destruct sign; lia.
    + replace (- (- s + 1)) with (s - 1) by lia.
      rewrite Hhalf, Z.mod_mul, Z.div_mul by lia. reflexivity.
  - destruct (Z.eqb_spec (q * 2 ^ s) 0); [nia |].
    destruct (Z.ltb_spec 971 (- s)); [lia |].
    eexists. split; [reflexivity |].
    unfold integer_value. rewrite Z2Pos.id by nia.
    destruct (Z.leb_spec 0 (- s)) as [H0 | H0].
    + assert (s = 0) as Hs' by lia. rewrite Hs' in *.
      change (2 ^ (- 0)) with 1. change (2 ^ 0) with 1.
      simpl option_map. f_equal. destruct sign; lia.
    + replace (- - s) with s by lia.
      rewrite Z.mod_mul, Z.div_mul by lia. reflexivity.
Qed.

(** When [training_batch_size] divides [num_episodes * episode_length],
    both non-negative and below [2 ^ 53], no rounding takes place: the
    float handed to the trainer has exactly the value of the integer
    quotient. *)
Theorem num_epochs_is_exact_when_divisible (a b c : Z) :
  0 <= a * b < 2 ^ 53 -> 0 < c < 2 ^ 53 -> (c | a * b) ->
  exists f,
    num_epochs a b c = Ok f /\ integer_value f = Some (a * b / c).
Proof.
  intros Hab Hc Hdiv. unfold num_epochs, int_true_divide.
  destruct (Z.eqb_spec c 0); [lia |].
  destruct (Z.eqb_spec (a * b) 0) as [E | E].
  - rewrite E. eexists. split; [reflexivity |]. reflexivity.
  - destruct (Z.ltb_spec (a * b) 0); [lia |].
    destruct (Z.ltb_spec c 0); [lia |].
    rewrite !Z.abs_eq by lia. simpl xorb.
    apply (round_to_binary64_exact (a * b) c false); (lia || assumption).
Qed.

Lemma num_epochs_is_exact_witness :
  exists f,
    num_epochs 50000 200 10000 = Ok f /\ integer_value f = Some 1000.
Proof.
  apply (num_epochs_is_exact_when_divisible 50000 200 10000).
  - split; vm_compute; [discriminate | reflexivity].
  - split; vm_compute; reflexivity.
  - exists 1000. reflexivity.
Defined.

End EpochsExtras.
